(** * Chat request lifecycle of [static/js/chat_main.js]

    A shallow embedding of the browser script that drives the chat window:
    the submit handler [handleChatMessage], the transport wrapper
    [callLLMAPI], the cancel handler [abortCurrentRequest], the helpers that
    project the request state on the send button and the spinner, and the
    renderers of the transcript.

    The script is event driven.  Every handler runs to completion, promise
    continuations included, before the browser dispatches the next event; the
    embedding therefore is a transition function [step] from a state and one
    browser event to the next state, and a suspended invocation of
    [handleChatMessage] is kept in the state as a task together with the
    [await] it is parked on. *)

From Stdlib Require Import List String Ascii Bool Arith Lia.
Import ListNotations.
Local Open Scope string_scope.
Local Open Scope list_scope.

(** ** JavaScript values that reach the script *)

Module Js.

#[local] Set Warnings "-register-all".

(** A decoded number, kept by what the script can ask of it: whether it is
    zero ([if (n)]), whether it is above zero ([n > 0]) and the text the
    engine prints it as ([String(n)]: [1e+21], [0.1], ...). *)
Record Number : Type := {
  is_zero : bool;
  is_positive : bool;
  printed : string
}.

(** Decoded JSON.  Strings are kept as the bytes of their UTF-8 encoding. *)
Inductive json : Type :=
| JNull
| JBool (b : bool)
| JNum (n : Number)
| JStr (s : string)
| JArr (items : list json)
| JObj (fields : list (string * json)).

(** A thrown value: [error.name] and [error.message]. *)
Record Exn : Type := mkExn { exn_name : string; exn_message : string }.

Definition nonempty (s : string) : bool := negb (s =? "").

(** [if (v)] *)
Definition truthy (v : json) : bool :=
  match v with
  | JNull => false
  | JBool b => b
  | JNum n => negb (is_zero n)
  | JStr s => nonempty s
  | JArr _ | JObj _ => true
  end.

(** An object literal keeps the last binding of a repeated key. *)
Fixpoint lookup (k : string) (fields : list (string * json)) : option json :=
  match fields with
  | [] => None
  | (k', v) :: rest =>
      match lookup k rest with
      | Some w => Some w
      | None => if k' =? k then Some v else None
      end
  end.

(** [v.k] for a value other than [null] and a key that no primitive and no
    array carries; [None] is [undefined]. *)
Definition field (k : string) (v : json) : option json :=
  match v with
  | JObj fs => lookup k fs
  | _ => None
  end.

(** [String(v)], as a template literal applies it. *)
Fixpoint ToString (v : json) : string :=
  match v with
  | JNull => "null"
  | JBool true => "true"
  | JBool false => "false"
  | JNum n => printed n
  | JStr s => s
  | JArr items =>
      (fix join (l : list json) : string :=
         match l with
         | [] => ""
         | x :: rest =>
             let here := match x with JNull => "" | _ => ToString x end in
             match rest with
             | [] => here
             | _ :: _ => (here ++ "," ++ join rest)%string
             end
         end) items
  | JObj _ => "[object Object]"
  end.


(** [String.prototype.trim] strips the code points of WhiteSpace and
    LineTerminator.  Those of the ASCII range take one byte: TAB, LF, VT,
    FF, CR and SP. *)
Definition is_space (c : ascii) : bool :=
  let n := nat_of_ascii c in
  ((n =? 9) || (n =? 10) || (n =? 11) || (n =? 12) || (n =? 13) || (n =? 32))%nat.

(** U+00A0 is the two bytes C2 A0. *)
Definition is_space2 (a b : ascii) : bool :=
  ((nat_of_ascii a =? 194) && (nat_of_ascii b =? 160))%nat.

(** The others take three bytes: U+1680 (E1 9A 80), U+2000 to U+200A,
    U+2028, U+2029 and U+202F (E2 80 80 to 8A, A8, A9, AF), U+205F
    (E2 81 9F), U+3000 (E3 80 80) and U+FEFF (EF BB BF). *)
Definition is_space3 (a b c : ascii) : bool :=
  let x := nat_of_ascii a in
  let y := nat_of_ascii b in
  let z := nat_of_ascii c in
  ((x =? 225) && (y =? 154) && (z =? 128)
   || (x =? 226) && (y =? 128)
      && ((128 <=? z) && (z <=? 138) || (z =? 168) || (z =? 169) || (z =? 175))
   || (x =? 226) && (y =? 129) && (z =? 159)
   || (x =? 227) && (y =? 128) && (z =? 128)
   || (x =? 239) && (y =? 187) && (z =? 191))%nat.

Fixpoint trim_start (s : string) : string :=
  match s with
  | EmptyString => EmptyString
  | String a r1 =>
      if is_space a then trim_start r1
      else
        match r1 with
        | EmptyString => s
        | String b r2 =>
            if is_space2 a b then trim_start r2
            else
              match r2 with
              | EmptyString => s
              | String c r3 => if is_space3 a b c then trim_start r3 else s
              end
        end
  end.

(** The string is made of white space only. *)
Definition blank (s : string) : bool := trim_start s =? "".

(** The longest suffix of white space is dropped. *)
Fixpoint trim_end (s : string) : string :=
  if blank s then EmptyString
  else
    match s with
    | EmptyString => EmptyString
    | String c rest => String c (trim_end rest)
    end.

Definition trim (s : string) : string := trim_end (trim_start s).

(** [s.split(sep)] for a one-character separator. *)
Fixpoint split (sep : ascii) (s : string) : list string :=
  match s with
  | EmptyString => [EmptyString]
  | String c rest =>
      if Ascii.eqb c sep then EmptyString :: split sep rest
      else match split sep rest with
           | piece :: pieces => String c piece :: pieces
           | [] => [String c EmptyString]
           end
  end.

(** An object with string values is the list of its own properties in the
    order they were created, which is not always the order they are
    enumerated in.  A property is set where it is, or added at the end. *)
Fixpoint define (k v : string) (obj : list (string * string))
  : list (string * string) :=
  match obj with
  | [] => [(k, v)]
  | (k', v') :: rest =>
      if k' =? k then (k', v) :: rest else (k', v') :: define k v rest
  end.

(** [obj[k] = v] for a string [v] on an object literal: the key [__proto__]
    reaches the setter of [Object.prototype], which ignores a value that is
    no object and adds no property. *)
Definition assign (k v : string) (obj : list (string * string))
  : list (string * string) :=
  if k =? "__proto__" then obj else define k v obj.


End Js.
Export Js.

(** ** The page: configuration, widgets, transcript *)

(** [window.company_ui_config], copied to [specificDataConfig] when the
    document is ready. *)
Record Config : Type := { enabled : bool; id : string; data_key : string }.

(** What the page and the engine provide and the script only reads. *)
Record Env : Type := {
  company_ui_config : option Config;
  externalUserId : string;
  (** message of the [TypeError] raised by reading a property of [null] *)
  null_read_message : string;
  (** message of the [AbortError] an aborted [fetch] rejects with *)
  abort_message : string;
  (** [s > 0] for a string [s] *)
  string_positive : string -> bool;
  (** message of the [TypeError] that jQuery's [append] ends with on a value
      it cannot insert, [None] for a value it inserts *)
  append_error : json -> option string;
  (** message of the [TypeError] of ['document_name' in v] for a [v] that
      is no object *)
  in_error_message : json -> string;
  (** message of the [TypeError] of [doc.causes.map(...)] for a [causes]
      without [map] *)
  not_callable_message : string
}.

(** [specificDataConfig && specificDataConfig.enabled] *)
Definition specific_enabled (env : Env) : bool :=
  match company_ui_config env with
  | Some c => enabled c
  | None => false
  end.

(** A queued file of the upload widget; its bytes reach the script only as
    the data URL a [FileReader] hands back. *)
Record File : Type := { file_name : string }.

(** What [toBase64] resolves to. *)
Record FileData : Type := { name : string; base64 : option string }.

Record Attachment : Type := { filename : string; content : option string }.

(** The body handed to [fetch]. *)
Record Payload : Type := {
  p_question : string;
  p_prompt_name : string;
  p_client_data : list (string * string);
  p_files : list Attachment;
  p_external_user_id : string
}.

Inductive Notice : Type :=
| NoNotice
| ValidNotice
| Rejections (items : list string).

Record Card : Type := {
  card_filename : string;
  card_badge : string;
  card_type : string;
  card_notice : Notice
}.

(** Children of [#chat-container], the spinner apart. *)
Inductive Node : Type :=
| UserMessage (text : string) (edit : option string)
| Div (classes : string) (appended : json)
| DocumentCard (card : Card).

(** Calls that leave the script, in the order they are made. *)
Inductive Call : Type :=
| SwalFire
| GetFiles (tid : nat) (files : list File)
| FetchCall (tid : nat) (data : Payload)
| ShowSpinner
| HideSpinner
| SetButtonToStop
| SetButtonToSend
| ToggleSendStop (showStop : bool)
| RemoveFiles
| ConsoleError (error : Exn)
| ConsoleWarn (doc : json).

(** The form values [handleChatMessage] reads before its first [await]. *)
Record Snapshot : Type := {
  snap_question : string;
  snap_prompt : string;
  snap_specific : string
}.

(** The [await] an invocation of [handleChatMessage] is parked on. *)
Inductive Phase : Type :=
| Encoding (snap : Snapshot) (files : list File) (slots : list (option FileData))
| AwaitFetch
| AwaitBody (ok : bool).

Definition in_network (ph : Phase) : bool :=
  match ph with
  | Encoding _ _ _ => false
  | AwaitFetch | AwaitBody _ => true
  end.

Record State : Type := mkState {
  (** module variables and [window.isManualAbort] *)
  currentAbortController : option nat;
  isRequestInProgress : bool;
  isManualAbort : bool;
  (** widgets; the page carries the input of the structured field *)
  question_input : string;
  agent_select_value : string;
  agent_select_description : string;
  specific_input : string;
  filePond : list File;
  (** presentation *)
  chat : list Node;
  spinner : bool;
  stop_mode : bool;
  (** suspended invocations, armed timers, aborted signals *)
  tasks : list (nat * Phase);
  next_id : nat;
  timers : list nat;
  aborted : list nat;
  calls : list Call
}.

Definition init : State :=
  mkState None false false "" "" "" "" [] [] false false [] 0 [] [] [].

Definition set_currentAbortController (v : option nat) (s : State) : State :=
  mkState v (isRequestInProgress s) (isManualAbort s) (question_input s)
    (agent_select_value s) (agent_select_description s) (specific_input s)
    (filePond s) (chat s) (spinner s) (stop_mode s) (tasks s) (next_id s)
    (timers s) (aborted s) (calls s).

Definition set_isRequestInProgress (v : bool) (s : State) : State :=
  mkState (currentAbortController s) v (isManualAbort s) (question_input s)
    (agent_select_value s) (agent_select_description s) (specific_input s)
    (filePond s) (chat s) (spinner s) (stop_mode s) (tasks s) (next_id s)
    (timers s) (aborted s) (calls s).

Definition set_isManualAbort (v : bool) (s : State) : State :=
  mkState (currentAbortController s) (isRequestInProgress s) v
    (question_input s) (agent_select_value s) (agent_select_description s)
    (specific_input s) (filePond s) (chat s) (spinner s) (stop_mode s)
    (tasks s) (next_id s) (timers s) (aborted s) (calls s).

Definition set_question_input (v : string) (s : State) : State :=
  mkState (currentAbortController s) (isRequestInProgress s) (isManualAbort s)
    v (agent_select_value s) (agent_select_description s) (specific_input s)
    (filePond s) (chat s) (spinner s) (stop_mode s) (tasks s) (next_id s)
    (timers s) (aborted s) (calls s).

Definition set_agent_select (value description : string) (s : State) : State :=
  mkState (currentAbortController s) (isRequestInProgress s) (isManualAbort s)
    (question_input s) value description (specific_input s) (filePond s)
    (chat s) (spinner s) (stop_mode s) (tasks s) (next_id s) (timers s)
    (aborted s) (calls s).

Definition set_specific_input (v : string) (s : State) : State :=
  mkState (currentAbortController s) (isRequestInProgress s) (isManualAbort s)
    (question_input s) (agent_select_value s) (agent_select_description s) v
    (filePond s) (chat s) (spinner s) (stop_mode s) (tasks s) (next_id s)
    (timers s) (aborted s) (calls s).

Definition set_filePond (v : list File) (s : State) : State :=
  mkState (currentAbortController s) (isRequestInProgress s) (isManualAbort s)
    (question_input s) (agent_select_value s) (agent_select_description s)
    (specific_input s) v (chat s) (spinner s) (stop_mode s) (tasks s)
    (next_id s) (timers s) (aborted s) (calls s).

Definition set_chat (v : list Node) (s : State) : State :=
  mkState (currentAbortController s) (isRequestInProgress s) (isManualAbort s)
    (question_input s) (agent_select_value s) (agent_select_description s)
    (specific_input s) (filePond s) v (spinner s) (stop_mode s) (tasks s)
    (next_id s) (timers s) (aborted s) (calls s).

Definition set_spinner (v : bool) (s : State) : State :=
  mkState (currentAbortController s) (isRequestInProgress s) (isManualAbort s)
    (question_input s) (agent_select_value s) (agent_select_description s)
    (specific_input s) (filePond s) (chat s) v (stop_mode s) (tasks s)
    (next_id s) (timers s) (aborted s) (calls s).

Definition set_stop_mode (v : bool) (s : State) : State :=
  mkState (currentAbortController s) (isRequestInProgress s) (isManualAbort s)
    (question_input s) (agent_select_value s) (agent_select_description s)
    (specific_input s) (filePond s) (chat s) (spinner s) v (tasks s)
    (next_id s) (timers s) (aborted s) (calls s).

Definition set_tasks (v : list (nat * Phase)) (s : State) : State :=
  mkState (currentAbortController s) (isRequestInProgress s) (isManualAbort s)
    (question_input s) (agent_select_value s) (agent_select_description s)
    (specific_input s) (filePond s) (chat s) (spinner s) (stop_mode s) v
    (next_id s) (timers s) (aborted s) (calls s).

Definition set_next_id (v : nat) (s : State) : State :=
  mkState (currentAbortController s) (isRequestInProgress s) (isManualAbort s)
    (question_input s) (agent_select_value s) (agent_select_description s)
    (specific_input s) (filePond s) (chat s) (spinner s) (stop_mode s)
    (tasks s) v (timers s) (aborted s) (calls s).

Definition set_timers (v : list nat) (s : State) : State :=
  mkState (currentAbortController s) (isRequestInProgress s) (isManualAbort s)
    (question_input s) (agent_select_value s) (agent_select_description s)
    (specific_input s) (filePond s) (chat s) (spinner s) (stop_mode s)
    (tasks s) (next_id s) v (aborted s) (calls s).

Definition set_aborted (v : list nat) (s : State) : State :=
  mkState (currentAbortController s) (isRequestInProgress s) (isManualAbort s)
    (question_input s) (agent_select_value s) (agent_select_description s)
    (specific_input s) (filePond s) (chat s) (spinner s) (stop_mode s)
    (tasks s) (next_id s) (timers s) v (calls s).

Definition set_calls (v : list Call) (s : State) : State :=
  mkState (currentAbortController s) (isRequestInProgress s) (isManualAbort s)
    (question_input s) (agent_select_value s) (agent_select_description s)
    (specific_input s) (filePond s) (chat s) (spinner s) (stop_mode s)
    (tasks s) (next_id s) (timers s) (aborted s) v.

Definition call (c : Call) (s : State) : State :=
  set_calls (calls s ++ [c]) s.

(** ** The script *)

Module Chat.

(** *** Presentation helpers *)

(** A spinner left over is removed before the new one is appended. *)
Definition showSpinner (s : State) : State :=
  call ShowSpinner (set_spinner true s).

(** The spinner is gone once its fade-out ends; the animation itself is
    not tracked. *)
Definition hideSpinner (s : State) : State :=
  call HideSpinner (set_spinner false s).

(** The classes and the label of [#send-button] are kept as one flag. *)
Definition setButtonToStop (s : State) : State :=
  call SetButtonToStop (set_isRequestInProgress true (set_stop_mode true s)).

Definition setButtonToSend (s : State) : State :=
  call SetButtonToSend
    (set_currentAbortController None
       (set_isRequestInProgress false (set_stop_mode false s))).

Definition toggleSendStopButtons (showStop : bool) (s : State) : State :=
  call (ToggleSendStop showStop) s.

Definition resetAgentSelect (s : State) : State := set_agent_select "" "" s.

Definition resetSpecificDataInput (env : Env) (s : State) : State :=
  if specific_enabled env then set_specific_input "" s else s.

Definition displayBotMessage (section : Node) (s : State) : State :=
  set_chat (chat s ++ [section]) s.

(** The entry [displayUserMessage] builds: its text and, when [pencil] is
    left true, the edit icon with the question its click handler restores. *)
Definition userMessage
  (question selectedDescription specificDataValue selectedPrompt : string)
  : Node :=
  let pencil := true in
  let '(messageText, pencil) :=
    if nonempty specificDataValue && nonempty question
       && negb (nonempty selectedPrompt)
    then ((specificDataValue ++ ": " ++ question)%string, pencil)
    else if nonempty specificDataValue && negb (nonempty question)
            && nonempty selectedPrompt
    then ((specificDataValue ++ ": " ++ selectedDescription)%string, pencil)
    else if negb (nonempty specificDataValue) && nonempty selectedPrompt
    then (selectedDescription, false)
    else (question, true) in
  UserMessage messageText (if pencil then Some question else None).

Definition displayUserMessage
  (question selectedDescription specificDataValue selectedPrompt : string)
  (s : State) : State :=
  set_chat
    (chat s
     ++ [userMessage question selectedDescription specificDataValue
           selectedPrompt]) s.

(** *** Document validation cards *)








(** *** Suspended invocations *)

Definition phase_of (tid : nat) (s : State) : option Phase :=
  match find (fun t => fst t =? tid)%nat (tasks s) with
  | Some t => Some (snd t)
  | None => None
  end.

Definition park (tid : nat) (ph : Phase) (s : State) : State :=
  set_tasks
    (map (fun t => if (fst t =? tid)%nat then (tid, ph) else t) (tasks s)) s.

Definition finish (tid : nat) (s : State) : State :=
  set_tasks (filter (fun t => negb (fst t =? tid)%nat) (tasks s)) s.

(** [setTimeout(() => controller.abort(), timeoutMs)], [clearTimeout] and
    [controller.abort()]; the controller of an invocation carries its id. *)
Definition setTimeout (tid : nat) (s : State) : State :=
  set_timers (tid :: timers s) s.

Definition clearTimeout (tid : nat) (s : State) : State :=
  set_timers (filter (fun t => negb (t =? tid)%nat) (timers s)) s.

Definition abort (tid : nat) (s : State) : State :=
  set_aborted (tid :: aborted s) s.

Definition signal_aborted (tid : nat) (s : State) : bool :=
  existsb (Nat.eqb tid) (aborted s).

(** How an awaited call ends. *)
Inductive Outcome : Type :=
| Return (v : json)
| Throw (error : Exn).

(** What [response.json()] settles with. *)
Inductive Body : Type :=
| Parsed (v : json)
| Unparsable (message : string).

(** *** [callLLMAPI] *)

Definition generic_server_error : string := "Error desconocido del servidor".

Definition connection_error (message : string) : Node :=
  Div "error-section" (JStr ("<p>Error de conexión: " ++ message ++ "</p>")).

Definition endpoint_error (message : string) : Node :=
  Div "error-section" (JStr ("<p>" ++ message ++ "</p>")).

(** Up to [await fetch(...)]. *)
Definition callLLMAPI (tid : nat) (data : Payload) (s : State) : State :=
  let s := set_currentAbortController (Some tid) s in
  let s := setTimeout tid s in
  park tid AwaitFetch (call (FetchCall tid data) s).

(** Its [catch] block. *)
Definition callLLMAPI_catch (tid : nat) (error : Exn) (s : State)
  : State * Outcome :=
  let s := clearTimeout tid s in
  if exn_name error =? "AbortError" then (s, Throw error)
  else (displayBotMessage (connection_error (exn_message error)) s,
        Return JNull).

(** From the response to the first [await response.json()]. *)
Definition callLLMAPI_response (tid : nat) (ok : bool) (s : State) : State :=
  park tid (AwaitBody ok) (clearTimeout tid s).

(** [errorData.error_message || 'Error desconocido del servidor'] *)
Definition error_text (errorData : json) : string :=
  match field "error_message" errorData with
  | Some m => if truthy m then ToString m else generic_server_error
  | None => generic_server_error
  end.

(** From the settled [response.json()] to the end of the call. *)
Definition callLLMAPI_body (env : Env) (tid : nat) (ok : bool) (body : Body)
  (s : State) : State * Outcome :=
  match body with
  | Unparsable message => callLLMAPI_catch tid (mkExn "SyntaxError" message) s
  | Parsed v =>
      if ok then (s, Return v)
      else match v with
           | JNull =>
               callLLMAPI_catch tid
                 (mkExn "TypeError" (null_read_message env)) s
           | errorData =>
               (displayBotMessage (endpoint_error (error_text errorData)) s,
                Return JNull)
           end
  end.

(** *** [handleChatMessage] *)

Definition cancelled_notice : Node :=
  Div "error-section alert alert-warning"
    (JStr "Solicitud cancelada por el usuario").

Definition timeout_notice : Node :=
  Div "error-section alert alert-danger"
    (JStr "La solicitud ha excedido el tiempo límite de respuesta, intente nuevamente").

Definition removeFiles (s : State) : State :=
  call RemoveFiles (set_filePond [] s).

Definition communication_error (message : string) : Node :=
  Div "error-section alert alert-danger"
    (JStr ("Error de conexión: " ++ message)).

(** The rest of the [try] block once [callLLMAPI] returned, with the
    exception that leaves it, if any: [answerSection.append(answer)] throws
    on an answer jQuery cannot insert, before the section is displayed. *)
Definition handleChatMessage_try (env : Env) (responseData : json) (s : State)
  : State * option Exn :=
  if truthy responseData then
    match field "answer" responseData with
    | Some answer =>
        if truthy answer then
          match append_error env answer with
          | Some message => (s, Some (mkExn "TypeError" message))
          | None =>
              (displayBotMessage (Div "answer-section llm-output" answer) s,
               None)
          end
        else (s, None)
    | None => (s, None)
    end
  else (s, None).

(** The [catch] block. *)
Definition handleChatMessage_catch (error : Exn) (s : State) : State :=
  let s := call (ConsoleError error) s in
  let s :=
    if exn_name error =? "AbortError" then
      if isManualAbort s
      then set_isManualAbort false (displayBotMessage cancelled_notice s)
      else displayBotMessage timeout_notice s
    else displayBotMessage (communication_error (exn_message error)) s in
  setButtonToSend (hideSpinner s).

(** From the settled [await callLLMAPI(...)] on: the rest of the [try]
    block, the [catch] block, the [finally] block. *)
Definition handleChatMessage_settle (env : Env) (tid : nat) (o : Outcome)
  (s : State) : State :=
  let s := finish tid s in
  let '(s, thrown) :=
    match o with
    | Return responseData => handleChatMessage_try env responseData s
    | Throw error => (s, Some error)
    end in
  let s :=
    match thrown with
    | Some error => handleChatMessage_catch error s
    | None => s
    end in
  removeFiles (setButtonToSend (hideSpinner s)).

Definition client_data_of (env : Env) (snap : Snapshot)
  : list (string * string) :=
  let client_data :=
    [("prompt_name", snap_prompt snap); ("question", snap_question snap)] in
  match company_ui_config env with
  | Some c =>
      if enabled c && nonempty (snap_specific snap)
      then assign (data_key c) (snap_specific snap) client_data
      else client_data
  | None => client_data
  end.

Definition data_of (env : Env) (snap : Snapshot) (filesBase64 : list FileData)
  : Payload :=
  {| p_question := snap_question snap;
     p_prompt_name := snap_prompt snap;
     p_client_data := client_data_of env snap;
     p_files :=
       map (fun fileData =>
              {| filename := name fileData; content := base64 fileData |})
           filesBase64;
     p_external_user_id := externalUserId env |}.

(** [Promise.all]: the array of the results once every promise resolved. *)
Fixpoint all_resolved (slots : list (option FileData))
  : option (list FileData) :=
  match slots with
  | [] => Some []
  | None :: _ => None
  | Some d :: rest =>
      match all_resolved rest with
      | Some ds => Some (d :: ds)
      | None => None
      end
  end.

(** From the settled [await Promise.all(...)] to [await callLLMAPI(...)]. *)
Definition handleChatMessage_send (env : Env) (tid : nat) (s : State)
  : State :=
  match phase_of tid s with
  | Some (Encoding snap _ slots) =>
      match all_resolved slots with
      | Some filesBase64 => callLLMAPI tid (data_of env snap filesBase64) s
      | None => s
      end
  | _ => s
  end.

Definition abortCurrentRequest (s : State) : State :=
  match currentAbortController s with
  | Some controller =>
      if isRequestInProgress s then
        let s := set_isManualAbort true s in
        let s := abort controller s in
        let s := toggleSendStopButtons false s in
        hideSpinner s
      else s
  | None => s
  end.

(** [let specificDataValue = ''; if (specificDataConfig &&
    specificDataConfig.enabled) specificDataValue = $(...).val().trim()] *)
Definition specificDataValue (env : Env) (s : State) : string :=
  if specific_enabled env then trim (specific_input s) else "".

(** Up to [await Promise.all(...)]; with no queued file the promise is
    already resolved and the invocation goes on to the network call. *)
Definition handleChatMessage (env : Env) (s : State) : State :=
  if isRequestInProgress s then abortCurrentRequest s
  else
    let question := trim (question_input s) in
    let selectedPrompt := agent_select_value s in
    let selectedDescription := agent_select_description s in
    let specificDataValue := specificDataValue env s in
    if negb (nonempty question) && negb (nonempty selectedPrompt)
    then call SwalFire s
    else
      let s := displayUserMessage question selectedDescription
                 specificDataValue selectedPrompt s in
      let s := showSpinner s in
      let s := setButtonToStop s in
      let s := set_question_input "" s in
      let s := resetAgentSelect s in
      let s := if specific_enabled env then resetSpecificDataInput env s
               else s in
      let files := filePond s in
      let tid := next_id s in
      let s := set_next_id (S tid) (call (GetFiles tid files) s) in
      let snap := {| snap_question := question;
                     snap_prompt := selectedPrompt;
                     snap_specific := specificDataValue |} in
      let s := set_tasks
                 ((tid, Encoding snap files (map (fun _ => None) files))
                  :: tasks s) s in
      handleChatMessage_send env tid s.

(** [toBase64]: what [reader.onload] resolves the promise with. *)
Definition toBase64 (file : File) (result : string) : FileData :=
  {| name := file_name file; base64 := nth_error (split "," result) 1 |}.

Fixpoint resolve_slot (i : nat) (d : FileData) (slots : list (option FileData))
  : list (option FileData) :=
  match slots, i with
  | [], _ => []
  | None :: rest, O => Some d :: rest
  | Some d' :: rest, O => Some d' :: rest
  | slot :: rest, S j => slot :: resolve_slot j d rest
  end.

(** *** Browser events *)

Inductive Event : Type :=
(** the user edits the form or queues a file *)
| TypeQuestion (text : string)
| PickPrompt (value text : string)
| TypeSpecific (text : string)
| AddFile (file : File)
(** [#send-button] click, Enter in [#question], [#stop-button] click *)
| ClickSend
| PressEnter
| ClickStop
(** a [FileReader] of invocation [tid] fires [onload] or [onerror] *)
| FileLoaded (tid i : nat) (result : string)
| FileFailed (tid i : nat)
(** the network: response received, body read, failure, timer *)
| Responded (tid : nat) (ok : bool)
| BodyRead (tid : nat) (body : Body)
| NetworkFailed (tid : nat) (message : string)
| Deadline (tid : nat).

(** The promise reactions an event leaves behind: a parked network call
    whose signal was aborted rejects with an [AbortError]. *)
Definition deliver_abort (env : Env) (tid : nat) (s : State) : State :=
  match phase_of tid s with
  | Some ph =>
      if in_network ph && signal_aborted tid s then
        let '(s, o) :=
          callLLMAPI_catch tid (mkExn "AbortError" (abort_message env)) s in
        handleChatMessage_settle env tid o s
      else s
  | None => s
  end.

Definition microtasks (env : Env) (s : State) : State :=
  fold_left (fun s t => deliver_abort env (fst t) s) (tasks s) s.

(** The handler the event runs. *)
Definition handle (env : Env) (s : State) (e : Event) : State :=
  match e with
  | TypeQuestion text => set_question_input text s
  | PickPrompt value text => set_agent_select value (trim text) s
  | TypeSpecific text => set_specific_input text s
  | AddFile file => set_filePond (filePond s ++ [file]) s
  | ClickSend | PressEnter => handleChatMessage env s
  | ClickStop => abortCurrentRequest s
  | FileLoaded tid i result =>
      match phase_of tid s with
      | Some (Encoding snap files slots) =>
          match nth_error files i with
          | Some file =>
              let slots := resolve_slot i (toBase64 file result) slots in
              handleChatMessage_send env tid
                (park tid (Encoding snap files slots) s)
          | None => s
          end
      | _ => s
      end
  | FileFailed tid i =>
      match phase_of tid s with
      | Some (Encoding _ files slots) =>
          match nth_error slots i with
          | Some None => finish tid s
          | _ => s
          end
      | _ => s
      end
  | Responded tid ok =>
      match phase_of tid s with
      | Some AwaitFetch => callLLMAPI_response tid ok s
      | _ => s
      end
  | BodyRead tid body =>
      match phase_of tid s with
      | Some (AwaitBody ok) =>
          let '(s, o) := callLLMAPI_body env tid ok body s in
          handleChatMessage_settle env tid o s
      | _ => s
      end
  | NetworkFailed tid message =>
      match phase_of tid s with
      | Some AwaitFetch | Some (AwaitBody _) =>
          let '(s, o) := callLLMAPI_catch tid (mkExn "TypeError" message) s in
          handleChatMessage_settle env tid o s
      | _ => s
      end
  | Deadline tid =>
      if existsb (Nat.eqb tid) (timers s)
      then abort tid (clearTimeout tid s)
      else s
  end.

Definition step (env : Env) (s : State) (e : Event) : State :=
  microtasks env (handle env s e).

Definition run (env : Env) (events : list Event) : State :=
  fold_left (step env) events init.

(** *** Observations *)

Definition count (p : Call -> bool) (s : State) : nat :=
  List.length (filter p (calls s)).

Definition is_hideSpinner (c : Call) : bool :=
  match c with HideSpinner => true | _ => false end.

Definition is_setButtonToSend (c : Call) : bool :=
  match c with SetButtonToSend => true | _ => false end.

Definition is_fetch (c : Call) : bool :=
  match c with FetchCall _ _ => true | _ => false end.

Definition is_removeFiles (c : Call) : bool :=
  match c with RemoveFiles => true | _ => false end.

(** Requests on the wire: invocations parked in [callLLMAPI]. *)
Definition in_flight (s : State) : list (nat * Phase) :=
  filter (fun t => in_network (snd t)) (tasks s).

(** The projection of the idle controller on the page. *)
Definition idle (s : State) : Prop :=
  spinner s = false /\ stop_mode s = false
  /\ isRequestInProgress s = false /\ currentAbortController s = None
  /\ tasks s = [].

(** How a request parked in phase [ph] is settled by an event.  A
    response whose answer cannot be inserted is a path of its own: the
    exception of [append] is caught by [handleChatMessage]. *)
Inductive Path : Type :=
| Success
| RenderError (message : string)
| UserCancel
| DeadlineTimeout
| ServerError
| ConnectivityError.

(** The message of the exception that rendering a success body ends with. *)
Definition render_error (env : Env) (responseData : json) : option string :=
  if truthy responseData then
    match field "answer" responseData with
    | Some answer => if truthy answer then append_error env answer else None
    | None => None
    end
  else None.

Definition settles (env : Env) (tid : nat) (ph : Phase) (e : Event)
  : option Path :=
  match ph, e with
  | Encoding _ _ _, _ => None
  | _, (ClickSend | PressEnter | ClickStop) => Some UserCancel
  | AwaitFetch, Deadline t => if (t =? tid)%nat then Some DeadlineTimeout else None
  | _, NetworkFailed t _ => if (t =? tid)%nat then Some ConnectivityError else None
  | AwaitBody true, BodyRead t (Parsed v) =>
      if (t =? tid)%nat then
        Some match render_error env v with
             | Some message => RenderError message
             | None => Success
             end
      else None
  | AwaitBody true, BodyRead t (Unparsable _) =>
      if (t =? tid)%nat then Some ConnectivityError else None
  | AwaitBody false, BodyRead t _ =>
      if (t =? tid)%nat then Some ServerError else None
  | _, _ => None
  end.

(** The calls made from the arrival of the settling event to the end of
    the [finally] block. *)
Definition cleanup_trace (env : Env) (path : Path) : list Call :=
  let aborted := ConsoleError (mkExn "AbortError" (abort_message env)) in
  match path with
  | Success | ServerError | ConnectivityError =>
      [HideSpinner; SetButtonToSend; RemoveFiles]
  | RenderError message =>
      [ConsoleError (mkExn "TypeError" message); HideSpinner; SetButtonToSend;
       HideSpinner; SetButtonToSend; RemoveFiles]
  | DeadlineTimeout =>
      [aborted; HideSpinner; SetButtonToSend; HideSpinner; SetButtonToSend;
       RemoveFiles]
  | UserCancel =>
      [ToggleSendStop false; HideSpinner; aborted; HideSpinner;
       SetButtonToSend; HideSpinner; SetButtonToSend; RemoveFiles]
  end.

(** The attachments of [data] are the encodings of [files], one for one,
    each delivered by a reader of invocation [tid] among [events]. *)
Definition fully_encoded (events : list Event) (tid : nat)
  (files : list File) (data : Payload) : Prop :=
  List.length (p_files data) = List.length files /\
  forall i file,
    nth_error files i = Some file ->
    exists result,
      In (FileLoaded tid i result) events /\
      nth_error (p_files data) i
      = Some {| filename := file_name file;
                content := nth_error (split "," result) 1 |}.

(** *** The shape of the state between two events *)

(** Aborted signals belong to controllers of earlier invocations. *)
Definition fresh (s : State) : Prop :=
  forall c, In c (aborted s) -> c < next_id s.

(** At most one invocation is suspended; the module variables, the timer
    and the flag agree with the [await] it is on. *)
Definition Inv (s : State) : Prop :=
  isManualAbort s = false /\ fresh s /\
  match tasks s with
  | [] => currentAbortController s = None /\ timers s = []
  | [(t, ph)] =>
      isRequestInProgress s = true /\ t < next_id s
      /\ signal_aborted t s = false
      /\ currentAbortController s = (if in_network ph then Some t else None)
      /\ timers s = match ph with AwaitFetch => [t] | _ => [] end
  | _ :: _ :: _ => False
  end.

(** *** The journal of queue reads and network calls *)

(** Calls other than a read of the queue or a [fetch]. *)
Definition quiet (c : Call) : Prop :=
  match c with
  | GetFiles _ _ | FetchCall _ _ => False
  | _ => True
  end.

(** Every resolved promise of [Promise.all] holds what [toBase64] made of
    the file at its index, from a reader event of this invocation. *)
Definition slots_ok (events : list Event) (tid : nat) (files : list File)
  (slots : list (option FileData)) : Prop :=
  List.length slots = List.length files /\
  forall i d,
    nth_error slots i = Some (Some d) ->
    exists file result,
      nth_error files i = Some file
      /\ In (FileLoaded tid i result) events
      /\ d = toBase64 file result.

(** What the journal of a run tells about its requests. *)
Definition Logged (events : list Event) (s : State) : Prop :=
  (forall tid files, In (GetFiles tid files) (calls s) -> tid < next_id s)
  /\ (forall tid files files',
        In (GetFiles tid files) (calls s) ->
        In (GetFiles tid files') (calls s) -> files' = files)
  /\ (forall tid data,
        In (FetchCall tid data) (calls s) ->
        exists files,
          In (GetFiles tid files) (calls s)
          /\ fully_encoded events tid files data)
  /\ (forall tid snap files slots,
        tasks s = [(tid, Encoding snap files slots)] ->
        In (GetFiles tid files) (calls s) /\ slots_ok events tid files slots).

(** The form as [handleChatMessage] reads it. *)
Definition form_snapshot (env : Env) (s : State) : Snapshot :=
  {| snap_question := trim (question_input s);
     snap_prompt := agent_select_value s;
     snap_specific := specificDataValue env s |}.

(** A click on Send or Enter in the question box. *)
Definition is_submit (e : Event) : bool :=
  match e with
  | ClickSend | PressEnter => true
  | _ => false
  end.

(** The transitions of the page, told by what they add to the journal and
    by the invocation they leave suspended in [Promise.all]. *)
Inductive Logs (env : Env) (s : State) (e : Event) (s' : State) : Prop :=
| Logs_quiet (added : list Call) :
    calls s' = calls s ++ added ->
    Forall quiet added ->
    next_id s' = next_id s ->
    (forall tid snap files slots,
       tasks s' = [(tid, Encoding snap files slots)] -> tasks s' = tasks s) ->
    Logs env s e s'
| Logs_submit :
    is_submit e = true ->
    isRequestInProgress s = false ->
    next_id s' = S (next_id s) ->
    calls s'
    = calls s ++ [ShowSpinner; SetButtonToStop;
                  GetFiles (next_id s) (filePond s)] ->
    tasks s'
    = [(next_id s,
        Encoding (form_snapshot env s) (filePond s)
          (map (fun _ => None) (filePond s)))] ->
    Logs env s e s'
| Logs_submit_send :
    is_submit e = true ->
    isRequestInProgress s = false ->
    next_id s' = S (next_id s) ->
    calls s'
    = calls s ++ [ShowSpinner; SetButtonToStop; GetFiles (next_id s) [];
                  FetchCall (next_id s) (data_of env (form_snapshot env s) [])] ->
    tasks s' = [(next_id s, AwaitFetch)] ->
    Logs env s e s'
| Logs_loaded (t i : nat) (result : string) (snap : Snapshot)
    (files : list File) (slots : list (option FileData)) (file : File) :
    e = FileLoaded t i result ->
    tasks s = [(t, Encoding snap files slots)] ->
    nth_error files i = Some file ->
    next_id s' = next_id s ->
    calls s' = calls s ->
    tasks s'
    = [(t, Encoding snap files
             (resolve_slot i (toBase64 file result) slots))] ->
    Logs env s e s'
| Logs_loaded_send (t i : nat) (result : string) (snap : Snapshot)
    (files : list File) (slots : list (option FileData)) (file : File)
    (filesBase64 : list FileData) :
    e = FileLoaded t i result ->
    tasks s = [(t, Encoding snap files slots)] ->
    nth_error files i = Some file ->
    all_resolved (resolve_slot i (toBase64 file result) slots)
    = Some filesBase64 ->
    next_id s' = next_id s ->
    calls s' = calls s ++ [FetchCall t (data_of env snap filesBase64)] ->
    tasks s' = [(t, AwaitFetch)] ->
    Logs env s e s'.

(** *** Where the payload of a request comes from *)



(** *** Document records as the response contract has them *)





(** *** Further observations *)


(** The character does not occur in the string. *)
Fixpoint free_of (sep : ascii) (s : string) : bool :=
  match s with
  | EmptyString => true
  | String c rest => negb (Ascii.eqb c sep) && free_of sep rest
  end.

(** The entries the script appends while it runs: the echo of a
    submission, the answer block, the two notices of an aborted request,
    the two error sections of [callLLMAPI], and the alert of the [catch]
    block of [handleChatMessage] for the exception of an answer that
    [append] rejects. *)
Inductive scripted (env : Env) : Node -> Prop :=
| scripted_echo question description specific prompt :
    scripted env (userMessage question description specific prompt)
| scripted_answer answer :
    truthy answer = true ->
    scripted env (Div "answer-section llm-output" answer)
| scripted_cancelled : scripted env cancelled_notice
| scripted_timeout : scripted env timeout_notice
| scripted_connection message : scripted env (connection_error message)
| scripted_endpoint message : scripted env (endpoint_error message)
| scripted_communication answer message :
    append_error env answer = Some message ->
    scripted env (communication_error message).

(** The invocation died in [Promise.all]: nothing is suspended, yet the
    in-progress flag is set and no controller is there to abort. *)
Definition wedged (s : State) : Prop :=
  tasks s = [] /\ isRequestInProgress s = true
  /\ currentAbortController s = None /\ timers s = [].

(** The user edits the form or queues a file. *)
Definition is_edit (e : Event) : bool :=
  match e with
  | TypeQuestion _ | PickPrompt _ _ | TypeSpecific _ | AddFile _ => true
  | _ => false
  end.

(** The reads of the queue and the network calls of one invocation. *)
Definition is_read_of (tid : nat) (c : Call) : bool :=
  match c with GetFiles t _ => (t =? tid)%nat | _ => false end.

Definition is_fetch_of (tid : nat) (c : Call) : bool :=
  match c with FetchCall t _ => (t =? tid)%nat | _ => false end.

(** Every id below [next_id] read the queue once and no other id did; an
    id fetched at most once, and not at all before its invocation exists
    or while it waits for its readers. *)
Definition Counted (s : State) : Prop :=
  forall tid,
    count (is_read_of tid) s = (if (tid <? next_id s)%nat then 1 else 0)
    /\ count (is_fetch_of tid) s <= 1
    /\ (next_id s <= tid -> count (is_fetch_of tid) s = 0)
    /\ (forall snap files slots,
          tasks s = [(tid, Encoding snap files slots)] ->
          count (is_fetch_of tid) s = 0).



End Chat.
Export Chat.

(** ** Sample pages and sessions *)

Module Sample.

(** An engine whose [append] inserts every value but an object with a
    positive [length], which it takes for a list of nodes. *)
Definition not_a_node : string :=
  "Failed to execute 'appendChild' on 'Node': parameter 1 is not of type 'Node'.".

Definition append_rejects_lists (v : json) : option string :=
  match v with
  | JObj fs =>
      match lookup "length" fs with
      | Some (JNum n) => if is_positive n then Some not_a_node else None
      | _ => None
      end
  | _ => None
  end.

Definition in_rejects (v : json) : string :=
  ("Cannot use 'in' operator to search for 'document_name' in "
   ++ ToString v)%string.

(** A page whose structured field is enabled and sent under [rut]. *)
Definition page : Env :=
  {| company_ui_config :=
       Some {| enabled := true; id := "rut"; data_key := "rut" |};
     externalUserId := "user-1";
     null_read_message := "Cannot read properties of null";
     abort_message := "The user aborted a request.";
     string_positive := fun _ => false;
     append_error := append_rejects_lists;
     in_error_message := in_rejects;
     not_callable_message := "doc.causes.map is not a function" |}.


(** A success body whose answer is a list of one node that is none. *)
Definition list_answer : json :=
  JObj [("answer",
         JObj [("length",
                JNum {| is_zero := false; is_positive := true;
                        printed := "1" |});
               ("0", JStr "x")])].

(** The user asks a question: request 0 waits for its response. *)
Definition asked : list Event := [TypeQuestion "Hello"; ClickSend].

(** The response of request 0 arrived and its body is being read. *)
Definition answered (ok : bool) : list Event := asked ++ [Responded 0 ok].

(** A structured value and a prompt, no question. *)
Definition prompt_only : list Event :=
  [TypeSpecific "ACME"; PickPrompt "summarize" "Summarize"; ClickSend].

(** Two queued files, read in the reverse order. *)
Definition with_files : list Event :=
  [AddFile {| file_name := "a.txt" |}; AddFile {| file_name := "b.txt" |};
   TypeQuestion "Hello"; ClickSend;
   FileLoaded 0 1 "data:text/plain;base64,Qg==";
   FileLoaded 0 0 "data:text/plain;base64,QQ=="].



(** What the page sends once both files are read. *)
Definition sent : Payload :=
  {| p_question := "Hello";
     p_prompt_name := "";
     p_client_data := [("prompt_name", ""); ("question", "Hello")];
     p_files := [{| filename := "a.txt"; content := Some "QQ==" |};
                 {| filename := "b.txt"; content := Some "Qg==" |}];
     p_external_user_id := "user-1" |}.

Definition valid_record : json :=
  JObj [("document_name", JStr "id.pdf"); ("document_type", JStr "ID");
        ("causes", JArr []); ("is_valid", JBool true)].

Definition rejected_record : json :=
  JObj [("document_name", JStr "bill.pdf"); ("document_type", JStr "Bill");
        ("causes", JArr [JStr "blurred"; JStr "expired"]);
        ("is_valid", JBool false)].


(** A success body that carries an answer and validation records. *)
Definition classified : json :=
  JObj [("answer", JStr "done");
        ("aditional_data",
         JObj [("classify_documents", JArr [valid_record; rejected_record])])].

End Sample.

(** ** Reduction of the script on a state of known shape *)

(** The innermost call on an explicit state is replaced by its value; what
    stays stuck is a comparison of an id with itself or a test a hypothesis
    decides. *)
Ltac eval_call :=
  match goal with
  | |- context [?f (mkState ?a1 ?a2 ?a3 ?a4 ?a5 ?a6 ?a7 ?a8 ?a9 ?a10 ?a11
                      ?a12 ?a13 ?a14 ?a15 ?a16)] =>
      let S := constr:(mkState a1 a2 a3 a4 a5 a6 a7 a8 a9 a10 a11 a12 a13
                         a14 a15 a16) in
      let r := eval cbv beta iota zeta delta
        [microtasks deliver_abort handleChatMessage specificDataValue
         abortCurrentRequest handleChatMessage_send
         handleChatMessage_try handleChatMessage_catch
         callLLMAPI callLLMAPI_catch callLLMAPI_response callLLMAPI_body
         displayUserMessage displayBotMessage showSpinner hideSpinner
         setButtonToStop setButtonToSend toggleSendStopButtons
         resetAgentSelect resetSpecificDataInput removeFiles phase_of park
         finish setTimeout clearTimeout abort signal_aborted call
         set_currentAbortController set_isRequestInProgress set_isManualAbort
         set_question_input set_agent_select set_specific_input set_filePond
         set_chat set_spinner set_stop_mode set_tasks set_next_id set_timers
         set_aborted set_calls currentAbortController isRequestInProgress
         isManualAbort question_input agent_select_value
         agent_select_description specific_input filePond chat spinner
         stop_mode tasks next_id timers aborted calls exn_name exn_message
         fst snd in_network String.eqb Ascii.eqb Bool.eqb]
        in (f S) in
      progress change (f S) with r
  end.

(** Tests the context decides. *)
Ltac rew_hyps :=
  repeat match goal with
         | H : ?x = _ |- context [?x] => rewrite H
         end.

(** List traversals on explicit lists, ids compared with themselves; the
    blocks of a settling invocation are entered one at a time. *)
Ltac tidy :=
  repeat (progress
            (cbn [fold_left find map filter app existsb all_resolved truthy
                  fst snd negb andb orb];
             rewrite ?Nat.eqb_refl; rew_hyps;
             cbv beta iota zeta delta [handleChatMessage_settle])).

(** One event on an explicit state, handler first, promise reactions
    after. *)
Ltac go :=
  unfold step, handle; cbv beta iota zeta; tidy;
  repeat (eval_call; tidy).

Lemma eqb_neq_both (a b : nat) :
  a <> b -> (a =? b)%nat = false /\ (b =? a)%nat = false.
Proof. intros H; split; apply Nat.eqb_neq; congruence. Qed.

(** An event addressed to an invocation other than the parked one. *)
Ltac other_id t tid :=
  let Hne := fresh "Hne" in
  let Hne1 := fresh "Hne" in
  let Hne2 := fresh "Hne" in
  destruct (Nat.eq_dec t tid) as [<-|Hne];
  [| destruct (eqb_neq_both _ _ Hne) as [Hne1 Hne2]; go].

(** The conjuncts of the invariant on an explicit state. *)
Ltac fin :=
  repeat split; try assumption; try reflexivity; try lia;
  try (let c := fresh "c" in let Hc := fresh "Hc" in
       intros c Hc; cbn [In] in Hc;
       repeat match goal with
              | H : _ \/ _ |- _ => destruct H as [<-|H]
              | Hf : forall c, In c ?ab -> _, H : In _ ?ab |- _ =>
                  specialize (Hf _ H)
              end; lia).

Lemma fresh_not_aborted (n : nat) (l : list nat) :
  (forall c, In c l -> c < n) -> existsb (Nat.eqb n) l = false.
Proof.
  induction l as [|c l IH]; intros H; simpl; [reflexivity|].
  rewrite IH by (intros; apply H; now right).
  destruct (Nat.eqb_spec n c) as [->|]; [|reflexivity].
  specialize (H c (or_introl eq_refl)); lia.
Qed.

(** ** The invariant holds between any two events *)

Lemma step_inv (env : Env) (s : State) (e : Event) :
  Inv s -> Inv (step env s e).
Proof.
  intros (Hm & Hf & Hs).
  destruct s as [cac irp ima q av ad sp fp ch spn sm ts nid tm ab cl].
  cbv [fresh] in Hf; cbn in Hm, Hf, Hs. subst ima.
  pose proof (fresh_not_aborted _ _ Hf) as Hnid.
  destruct ts as [|[t ph] [|]]; try contradiction.
  - destruct Hs as [-> ->].
    destruct e;
      [ | | | | destruct irp | destruct irp | | | | | | | ].
    6,8: destruct (negb (nonempty (trim q)) && negb (nonempty av)) eqn:Hv;
         destruct (specific_enabled env) eqn:Hen; destruct fp as [|f fp].
    all: go; unfold Inv, fresh; go; fin.
  - destruct Hs as (-> & Hlt & Hna & -> & ->).
    unfold signal_aborted in Hna; cbn in Hna.
    destruct ph as [snap files slots| |ok]; cbn [in_network].
    + destruct e;
        [ | | | | | | |
        | other_id t tid;
          [destruct (nth_error slots i) as [[d|]|] eqn:Hslot|]
        | other_id t tid | other_id t tid | other_id t tid | ].
      8:{ other_id t tid.
          - destruct (nth_error files i) as [file|] eqn:Hfile.
            + destruct
                (all_resolved (resolve_slot i (toBase64 file result) slots))
                eqn:Hall; go; unfold Inv, fresh; go; fin.
            + go; unfold Inv, fresh; go; fin.
          - unfold Inv, fresh; go; fin. }
      all: go; unfold Inv, fresh; go; fin.
    + destruct e;
        [ | | | | | | | other_id t tid | other_id t tid | other_id t tid
        | other_id t tid | other_id t tid | other_id t tid ].
      all: go; unfold Inv, fresh; go; fin.
    + destruct e;
        [ | | | | | | | other_id t tid | other_id t tid | other_id t tid
        | other_id t tid;
          [destruct body as [v|m]; destruct ok;
           [ destruct (truthy v) eqn:Htv;
             destruct (field "answer" v) as [a|] eqn:Hfa;
             try destruct (truthy a) eqn:Hta;
             try destruct (append_error env a) as [msg|] eqn:Happ
           | destruct v | | ]|]
        | other_id t tid | ].
      all: go; unfold Inv, fresh; go; fin.
Qed.

Lemma init_inv : Inv init.
Proof. unfold Inv, fresh, init; cbn [isManualAbort aborted tasks
  currentAbortController timers In]; intuition. Qed.

Lemma run_from_inv (env : Env) (events : list Event) (s : State) :
  Inv s -> Inv (fold_left (step env) events s).
Proof.
  revert s; induction events as [|e events IH]; intros s H; cbn [fold_left].
  - exact H.
  - apply IH. now apply step_inv.
Qed.

Lemma run_inv (env : Env) (events : list Event) : Inv (run env events).
Proof. unfold run. apply run_from_inv. exact init_inv. Qed.

Lemma run_snoc (env : Env) (events : list Event) (e : Event) :
  run env (events ++ [e]) = step env (run env events) e.
Proof. unfold run; now rewrite fold_left_app. Qed.

(** ** How a request on the wire settles *)

Lemma app_one (A : Type) (l : list A) (x : A) (m : list A) :
  (l ++ [x]) ++ m = l ++ x :: m.
Proof. now rewrite <- app_assoc. Qed.

(** Whatever settles the parked request, the page is idle again, the flag
    is clear, the upload widget is empty, and the calls made are those of
    [cleanup_trace]. *)
Lemma settle_step (env : Env) (s : State) (t : nat) (ph : Phase) (e : Event)
  (path : Path) :
  Inv s -> tasks s = [(t, ph)] -> settles env t ph e = Some path ->
  idle (step env s e)
  /\ isManualAbort (step env s e) = false
  /\ filePond (step env s e) = []
  /\ calls (step env s e) = calls s ++ cleanup_trace env path
  /\ (path = UserCancel -> chat (step env s e) = chat s ++ [cancelled_notice])
  /\ (path = DeadlineTimeout ->
      chat (step env s e) = chat s ++ [timeout_notice]).
Proof.
  intros (Hm & Hf & Hs) Ht Hpath.
  destruct s as [cac irp ima q av ad sp fp ch spn sm ts nid tm ab cl].
  cbv [fresh] in Hf; cbn in Hm, Hf, Hs, Ht. subst ima ts.
  destruct Hs as (-> & Hlt & Hna & -> & ->).
  unfold signal_aborted in Hna; cbn in Hna.
  destruct ph as [snap files slots| |ok]; [discriminate| |];
    destruct e; try destruct ok; try destruct body as [v|m];
    cbn [settles] in Hpath; try discriminate;
    try (destruct (Nat.eqb_spec tid t) as [->|]; [|discriminate]);
    injection Hpath as <-; unfold render_error.
  all: try match goal with
           | |- context [(_, AwaitBody true)] =>
               match goal with
               | |- context [Parsed ?v] =>
                   destruct (truthy v) eqn:Htv;
                   destruct (field "answer" v) as [a|] eqn:Hfa;
                   try destruct (truthy a) eqn:Hta;
                   try destruct (append_error env a) as [msg|] eqn:Happ
               end
           | |- context [(_, AwaitBody false)] =>
               match goal with
               | |- context [Parsed ?v] => destruct v
               end
           end.
  all: go; unfold idle, cleanup_trace; go; rewrite ?app_one.
  all: repeat split; try reflexivity; try discriminate.
Qed.

(** A state of the invariant with one parked invocation, opened up. *)
Ltac open_state s Hinv Ht :=
  let Hm := fresh "Hm" in
  let Hs := fresh "Hs" in
  destruct Hinv as (Hm & Hf & Hs);
  destruct s as [cac irp ima q av ad sp fp ch spn sm ts nid tm ab cl];
  cbv [fresh] in Hf; cbn in Hm, Hf, Hs, Ht; subst ima ts;
  destruct Hs as (-> & Hlt & Hna & -> & ->);
  unfold signal_aborted in Hna; cbn in Hna.

(** ** What a decoded or undecodable body leaves in the transcript *)

Lemma answer_rendered (env : Env) (s : State) (t : nat) (v answer : json) :
  Inv s -> tasks s = [(t, AwaitBody true)] ->
  truthy v = true -> field "answer" v = Some answer ->
  truthy answer = true -> append_error env answer = None ->
  chat (step env s (BodyRead t (Parsed v)))
  = chat s ++ [Div "answer-section llm-output" answer].
Proof.
  intros Hinv Ht Hv Ha Hta Happ. open_state s Hinv Ht. now go.
Qed.

Lemma answer_rejected (env : Env) (s : State) (t : nat) (v answer : json)
  (message : string) :
  Inv s -> tasks s = [(t, AwaitBody true)] ->
  truthy v = true -> field "answer" v = Some answer ->
  truthy answer = true -> append_error env answer = Some message ->
  chat (step env s (BodyRead t (Parsed v)))
  = chat s ++ [communication_error message].
Proof.
  intros Hinv Ht Hv Ha Hta Happ. open_state s Hinv Ht. now go.
Qed.


Lemma render_error_none (env : Env) (v : json) :
  (truthy v = false \/ field "answer" v = None
   \/ exists answer, field "answer" v = Some answer /\ truthy answer = false) ->
  render_error env v = None.
Proof.
  unfold render_error.
  intros [->|[->|(a & -> & ->)]]; [| destruct (truthy v) | destruct (truthy v)];
    reflexivity.
Qed.

Lemma nothing_rendered (env : Env) (s : State) (t : nat) (v : json) :
  Inv s -> tasks s = [(t, AwaitBody true)] ->
  (truthy v = false \/ field "answer" v = None
   \/ exists answer, field "answer" v = Some answer /\ truthy answer = false) ->
  chat (step env s (BodyRead t (Parsed v))) = chat s
  /\ calls (step env s (BodyRead t (Parsed v)))
     = calls s ++ [HideSpinner; SetButtonToSend; RemoveFiles].
Proof.
  intros Hinv Ht H. open_state s Hinv Ht.
  destruct (truthy v) eqn:Htv.
  - destruct H as [H|[H|(a & H & Hta)]]; [discriminate| |];
      go; rewrite ?app_one; now split.
  - go; rewrite ?app_one; now split.
Qed.



Lemma unparsable_rendered (env : Env) (s : State) (t : nat) (ok : bool)
  (message : string) :
  Inv s -> tasks s = [(t, AwaitBody ok)] ->
  chat (step env s (BodyRead t (Unparsable message)))
  = chat s ++ [connection_error message].
Proof.
  intros Hinv Ht. open_state s Hinv Ht. now go.
Qed.

(** ** A submission from the idle page with nothing queued *)

Lemma submit_without_files (env : Env) (s : State) (e : Event) :
  Inv s -> tasks s = [] -> isRequestInProgress s = false ->
  filePond s = [] ->
  e = ClickSend \/ e = PressEnter ->
  nonempty (trim (question_input s)) || nonempty (agent_select_value s)
  = true ->
  let snap := {| snap_question := trim (question_input s);
                 snap_prompt := agent_select_value s;
                 snap_specific := specificDataValue env s |} in
  tasks (step env s e) = [(next_id s, AwaitFetch)]
  /\ calls (step env s e)
     = calls s ++ [ShowSpinner; SetButtonToStop; GetFiles (next_id s) [];
                   FetchCall (next_id s) (data_of env snap [])].
Proof.
  intros (Hm & Hf & Hs) Ht Hirp Hfp He Hvalid.
  destruct s as [cac irp ima q av ad sp fp ch spn sm ts nid tm ab cl].
  cbv [fresh] in Hf;
    cbn [isManualAbort aborted next_id tasks isRequestInProgress filePond
         question_input agent_select_value calls currentAbortController
         timers] in *.
  subst ima ts irp fp. destruct Hs as [-> ->].
  pose proof (fresh_not_aborted _ _ Hf) as Hnid.
  assert (Hv : negb (nonempty (trim q)) && negb (nonempty av) = false).
  { destruct (nonempty (trim q)), (nonempty av); cbn [negb andb orb] in *;
    congruence. }
  unfold specificDataValue; cbn [specific_input].
  destruct (specific_enabled env) eqn:Hen;
    destruct He as [-> | ->]; go; rewrite ?app_one; now split.
Qed.

(** ** Single flight *)

Lemma count_app (p : Call -> bool) (s s' : State) (l : list Call) :
  calls s' = calls s ++ l ->
  count p s' = count p s + List.length (filter p l).
Proof.
  unfold count; intros ->. now rewrite filter_app, length_app.
Qed.

Lemma busy_is_cancel (env : Env) (s : State) :
  isRequestInProgress s = true ->
  handleChatMessage env s = abortCurrentRequest s.
Proof. unfold handleChatMessage; now intros ->. Qed.

Lemma encoding_ignores_cancel (env : Env) (s : State) (t : nat)
  (snap : Snapshot) (files : list File) (slots : list (option FileData)) :
  Inv s -> tasks s = [(t, Encoding snap files slots)] ->
  step env s ClickStop = s.
Proof.
  intros Hinv Ht. open_state s Hinv Ht. now go.
Qed.

Lemma cancel_settles (env : Env) (t : nat) (ph : Phase) (e : Event) :
  e = ClickSend \/ e = PressEnter \/ e = ClickStop ->
  in_network ph = true -> settles env t ph e = Some UserCancel.
Proof.
  intros [-> | [-> | ->]] H; destruct ph as [| |[|]]; try discriminate;
    reflexivity.
Qed.

(** C1.  Whatever the user and the network did so far, at most one
    invocation of the submit handler is suspended and at most one request
    is on the wire.  While one is pending, a Send runs the cancel handler
    and nothing else: it is the same transition as a Stop, it issues no
    [fetch], and it leaves no request on the wire. *)
Theorem single_flight (env : Env) (events : list Event) :
  List.length (tasks (run env events)) <= 1
  /\ List.length (in_flight (run env events)) <= 1
  /\ (tasks (run env events) <> [] ->
      handleChatMessage env (run env events)
      = abortCurrentRequest (run env events)
      /\ step env (run env events) ClickSend
         = step env (run env events) ClickStop
      /\ count is_fetch (step env (run env events) ClickSend)
         = count is_fetch (run env events)
      /\ in_flight (step env (run env events) ClickSend) = []).
Proof.
  pose proof (run_inv env events) as Hinv.
  set (s := run env events) in *. clearbody s.
  assert (Hone : List.length (tasks s) <= 1).
  { destruct Hinv as (_ & _ & Hs).
    destruct (tasks s) as [|[t ph] [|]]; cbn [List.length]; try lia;
      try contradiction. }
  split; [exact Hone|]. split.
  { unfold in_flight.
    apply Nat.le_trans with (List.length (tasks s)); [|exact Hone].
    apply filter_length_le. }
  intros Hbusy.
  assert (Hirp : isRequestInProgress s = true).
  { destruct Hinv as (_ & _ & Hs).
    destruct (tasks s) as [|[t ph] [|]]; [congruence| |contradiction].
    now destruct Hs. }
  pose proof (busy_is_cancel env s Hirp) as Hsame.
  assert (Hstep : step env s ClickSend = step env s ClickStop).
  { unfold step, handle. now rewrite Hsame. }
  split; [exact Hsame|]. split; [exact Hstep|]. rewrite Hstep.
  destruct (tasks s) as [|[t ph] [|]] eqn:Ht; [congruence| |].
  2:{ destruct Hinv as (_ & _ & Hs). rewrite Ht in Hs. contradiction. }
  destruct (in_network ph) eqn:Hnet.
  - destruct (settle_step env s t ph ClickStop UserCancel Hinv Ht
                (cancel_settles env t ph ClickStop (or_intror (or_intror eq_refl))
                   Hnet))
      as (Hidle & _ & _ & Hcalls & _).
    split.
    + rewrite (count_app _ _ _ _ Hcalls). cbn. lia.
    + unfold in_flight. destruct Hidle as (_ & _ & _ & _ & ->). reflexivity.
  - destruct ph as [snap files slots| |ok]; try discriminate.
    rewrite (encoding_ignores_cancel env s t snap files slots Hinv Ht).
    split; [reflexivity|]. unfold in_flight. now rewrite Ht.
Qed.

Lemma single_flight_witness :
  tasks (run Sample.page Sample.asked) <> []
  /\ step Sample.page (run Sample.page Sample.asked) ClickSend
     = step Sample.page (run Sample.page Sample.asked) ClickStop
  /\ count is_fetch (step Sample.page (run Sample.page Sample.asked) ClickSend)
     = 1.
Proof.
  assert (H : tasks (run Sample.page Sample.asked) <> [])
    by (vm_compute; discriminate).
  destruct (single_flight Sample.page Sample.asked) as (_ & _ & Hs).
  destruct (Hs H) as (_ & Hstep & Hcount & _).
  split; [exact H|]. split; [exact Hstep|].
  rewrite Hcount. vm_compute. reflexivity.
Defined.

(** ** Cleanup on every path *)

(** C2, as the script has it.  Whatever path settles the request on the
    wire, the page is back to the idle projection afterwards; the helpers
    [hideSpinner] and [setButtonToSend] run once on success, on a server
    error and on a connectivity error, twice each when the answer of a
    successful response cannot be inserted and on a deadline expiry (the
    [catch] and the [finally] block both call them), and three times and
    twice on a user cancel (the cancel handler hides the spinner too). *)
Theorem cleanup_on_every_path (env : Env) (events : list Event) (t : nat)
  (ph : Phase) (e : Event) (path : Path) :
  tasks (run env events) = [(t, ph)] ->
  settles env t ph e = Some path ->
  idle (step env (run env events) e)
  /\ count is_hideSpinner (step env (run env events) e)
     = count is_hideSpinner (run env events)
       + match path with
         | UserCancel => 3
         | RenderError _ | DeadlineTimeout => 2
         | Success | ServerError | ConnectivityError => 1
         end
  /\ count is_setButtonToSend (step env (run env events) e)
     = count is_setButtonToSend (run env events)
       + match path with
         | UserCancel | RenderError _ | DeadlineTimeout => 2
         | Success | ServerError | ConnectivityError => 1
         end.
Proof.
  intros Ht Hpath.
  destruct (settle_step env _ t ph e path (run_inv env events) Ht Hpath)
    as (Hidle & _ & _ & Hcalls & _).
  split; [exact Hidle|].
  rewrite (count_app is_hideSpinner _ _ _ Hcalls).
  rewrite (count_app is_setButtonToSend _ _ _ Hcalls).
  destruct path; split; reflexivity.
Qed.

Lemma cleanup_on_every_path_witness :
  idle (step Sample.page (run Sample.page (Sample.answered true))
          (BodyRead 0 (Parsed (JObj [("answer", JStr "Hi")]))))
  /\ count is_hideSpinner
       (step Sample.page (run Sample.page (Sample.answered true))
          (BodyRead 0 (Parsed (JObj [("answer", JStr "Hi")]))))
     = count is_hideSpinner (run Sample.page (Sample.answered true)) + 1
  /\ count is_setButtonToSend
       (step Sample.page (run Sample.page (Sample.answered true))
          (BodyRead 0 (Parsed (JObj [("answer", JStr "Hi")]))))
     = count is_setButtonToSend (run Sample.page (Sample.answered true)) + 1.
Proof.
  apply (cleanup_on_every_path Sample.page (Sample.answered true) 0
           (AwaitBody true) _ Success); reflexivity.
Defined.

(** C2 as stated fails: when the deadline of request 0 expires, the spinner
    is hidden twice and the button reset twice, not once. *)
Lemma cleanup_twice_on_timeout :
  tasks (run Sample.page Sample.asked) = [(0, AwaitFetch)]
  /\ count is_hideSpinner (run Sample.page Sample.asked) = 0
  /\ count is_setButtonToSend (run Sample.page Sample.asked) = 0
  /\ count is_hideSpinner
       (step Sample.page (run Sample.page Sample.asked) (Deadline 0)) = 2
  /\ count is_setButtonToSend
       (step Sample.page (run Sample.page Sample.asked) (Deadline 0)) = 2.
Proof. vm_compute. repeat split. Qed.

(** ** The wording of a cancellation and of a timeout *)



(** ** Attachments after the request settles *)

Lemma idle_edit (env : Env) (s : State) (text : string) :
  tasks s = [] ->
  step env s (TypeQuestion text) = set_question_input text s.
Proof.
  intros H. unfold step, handle, microtasks.
  cbn [tasks set_question_input]. now rewrite H.
Qed.

(** C9.  Whatever path settles the request on the wire, [removeFiles] runs
    once and the upload widget is empty afterwards; a question submitted
    next, with nothing attached in between, reads an empty queue and sends
    an empty [files] array. *)
Theorem attachments_removed_on_every_path (env : Env) (events : list Event)
  (t : nat) (ph : Phase) (e : Event) (path : Path) :
  tasks (run env events) = [(t, ph)] ->
  settles env t ph e = Some path ->
  filePond (step env (run env events) e) = []
  /\ count is_removeFiles (step env (run env events) e)
     = count is_removeFiles (run env events) + 1
  /\ forall text,
       nonempty (trim text) = true ->
       exists data,
         calls (step env
                  (step env (step env (run env events) e) (TypeQuestion text))
                  ClickSend)
         = calls (step env (run env events) e)
           ++ [ShowSpinner; SetButtonToStop;
               GetFiles (next_id (step env (run env events) e)) [];
               FetchCall (next_id (step env (run env events) e)) data]
         /\ p_files data = [].
Proof.
  intros Ht Hpath. pose proof (run_inv env events) as Hinv.
  destruct (settle_step env _ t ph e path Hinv Ht Hpath)
    as (Hidle & _ & Hfiles & Hcalls & _).
  pose proof (step_inv env _ e Hinv) as Hinv'.
  set (s' := step env (run env events) e) in *. clearbody s'.
  split; [exact Hfiles|]. split.
  { rewrite (count_app is_removeFiles _ _ _ Hcalls).
    destruct path; reflexivity. }
  intros text Htext.
  destruct Hidle as (_ & _ & Hirp & _ & Htasks).
  pose proof (step_inv env s' (TypeQuestion text) Hinv') as Hinv''.
  rewrite (idle_edit env s' text Htasks) in *.
  eexists. split.
  - apply (submit_without_files env (set_question_input text s') ClickSend
             Hinv'' Htasks Hirp Hfiles (or_introl eq_refl)).
    cbn [question_input set_question_input]. now rewrite Htext.
  - reflexivity.
Qed.

Lemma attachments_removed_on_every_path_witness :
  filePond
    (step Sample.page (run Sample.page Sample.with_files) (Deadline 0)) = []
  /\ count is_removeFiles
       (step Sample.page (run Sample.page Sample.with_files) (Deadline 0))
     = count is_removeFiles (run Sample.page Sample.with_files) + 1.
Proof.
  destruct (attachments_removed_on_every_path Sample.page Sample.with_files 0
              AwaitFetch (Deadline 0) DeadlineTimeout eq_refl eq_refl)
    as (Hfiles & Hcount & _).
  split; [exact Hfiles | exact Hcount].
Defined.

(** ** A completed request without an answer *)

(** C10.  When the body of a successful response decodes to a value that is
    falsy, or has no [answer], or has a falsy [answer], the transcript is
    left as it was: no bot message and no error entry.  The request is
    over all the same: the only calls made are the cleanup of the
    [finally] block and the page is idle. *)
Theorem falsy_answer_renders_nothing (env : Env) (events : list Event)
  (t : nat) (v : json) :
  tasks (run env events) = [(t, AwaitBody true)] ->
  (truthy v = false \/ field "answer" v = None
   \/ exists answer, field "answer" v = Some answer /\ truthy answer = false) ->
  chat (step env (run env events) (BodyRead t (Parsed v)))
  = chat (run env events)
  /\ calls (step env (run env events) (BodyRead t (Parsed v)))
     = calls (run env events) ++ [HideSpinner; SetButtonToSend; RemoveFiles]
  /\ idle (step env (run env events) (BodyRead t (Parsed v))).
Proof.
  intros Ht Hv. pose proof (run_inv env events) as Hinv.
  destruct (nothing_rendered env _ t v Hinv Ht Hv) as (Hchat & Hcalls).
  split; [exact Hchat|]. split; [exact Hcalls|].
  assert (Hpath : settles env t (AwaitBody true) (BodyRead t (Parsed v))
                  = Some Success).
  { cbn [settles]. rewrite Nat.eqb_refl.
    now rewrite (render_error_none env v Hv). }
  apply (settle_step env _ t _ _ _ Hinv Ht Hpath).
Qed.

Lemma falsy_answer_renders_nothing_witness :
  chat (step Sample.page (run Sample.page (Sample.answered true))
          (BodyRead 0 (Parsed (JObj [("answer", JStr "")]))))
  = [UserMessage "Hello" (Some "Hello")]
  /\ idle (step Sample.page (run Sample.page (Sample.answered true))
             (BodyRead 0 (Parsed (JObj [("answer", JStr "")])))).
Proof.
  destruct (falsy_answer_renders_nothing Sample.page (Sample.answered true) 0
              (JObj [("answer", JStr "")]) eq_refl)
    as (Hchat & _ & Hidle).
  - right. right. exists (JStr ""). split; reflexivity.
  - split; [exact Hchat | exact Hidle].
Defined.

(** ** Server errors *)





(** ** The echo of the user's submission *)

(** C4, at the input of the scenario.  With the structured value ACME, the
    prompt whose description is Summarize and no question, the entry text
    is the one the claim gives, but the entry carries the edit icon:
    [pencil] is still true on this branch, and the icon restores the empty
    question. *)
Theorem structured_prompt_entry_keeps_edit_icon :
  userMessage "" "Summarize" "ACME" "summarize"
  = UserMessage "ACME: Summarize" (Some "")
  /\ chat (run Sample.page Sample.prompt_only)
     = [UserMessage "ACME: Summarize" (Some "")].
Proof. vm_compute. split; reflexivity. Qed.

(** ** The structured field in [client_data] *)

Lemma nonempty_true (s : string) : nonempty s = true <-> s <> "".
Proof.
  unfold nonempty. destruct (String.eqb_spec s ""); cbn; split;
    congruence.
Qed.




(** ** Every transition keeps the journal *)

(** A transition that reads no queue and sends nothing. *)
Ltac quiet_case :=
  eapply Logs_quiet;
  [ cbn [calls]; first [ symmetry; apply app_nil_r
                       | rewrite ?app_one; reflexivity ]
  | repeat constructor
  | reflexivity
  | cbn [tasks]; intros; first [reflexivity | congruence] ].

Lemma step_logs (env : Env) (s : State) (e : Event) :
  Inv s -> Logs env s e (step env s e).
Proof.
  intros (Hm & Hf & Hs).
  destruct s as [cac irp ima q av ad sp fp ch spn sm ts nid tm ab cl].
  cbv [fresh] in Hf; cbn in Hm, Hf, Hs. subst ima.
  pose proof (fresh_not_aborted _ _ Hf) as Hnid.
  destruct ts as [|[t ph] [|]]; try contradiction.
  - destruct Hs as [-> ->].
    destruct e;
      [ | | | | destruct irp | destruct irp | | | | | | | ].
    6,8: destruct (negb (nonempty (trim q)) && negb (nonempty av)) eqn:Hv;
         destruct (specific_enabled env) eqn:Hen; destruct fp as [|f fp].
    all: go.
    all: try (quiet_case; fail).
    all: try (eapply Logs_submit_send; unfold form_snapshot, specificDataValue;
              cbn [next_id calls tasks filePond question_input
                   agent_select_value specific_input isRequestInProgress
                   is_submit];
              rewrite ?Hen, ?app_one; reflexivity).
    all: eapply Logs_submit; unfold form_snapshot, specificDataValue;
         cbn [next_id calls tasks filePond map question_input
              agent_select_value specific_input isRequestInProgress
              is_submit];
         rewrite ?Hen, ?app_one; reflexivity.
  - destruct Hs as (-> & Hlt & Hna & -> & ->).
    unfold signal_aborted in Hna; cbn in Hna.
    destruct ph as [snap files slots| |ok]; cbn [in_network].
    + destruct e;
        [ | | | | | | |
        | other_id t tid;
          [destruct (nth_error slots i) as [[d|]|] eqn:Hslot|]
        | other_id t tid | other_id t tid | other_id t tid | ].
      8:{ other_id t tid; [|quiet_case].
          destruct (nth_error files i) as [file|] eqn:Hfile;
            [|go; quiet_case].
          destruct
            (all_resolved (resolve_slot i (toBase64 file result) slots))
            as [filesBase64|] eqn:Hall; go.
          - eapply Logs_loaded_send;
              [reflexivity | reflexivity | exact Hfile | exact Hall
              | reflexivity | reflexivity | reflexivity].
          - eapply Logs_loaded;
              [reflexivity | reflexivity | exact Hfile
              | reflexivity | reflexivity | reflexivity]. }
      all: go; quiet_case.
    + destruct e;
        [ | | | | | | | other_id t tid | other_id t tid | other_id t tid
        | other_id t tid | other_id t tid | other_id t tid ].
      all: go; quiet_case.
    + destruct e;
        [ | | | | | | | other_id t tid | other_id t tid | other_id t tid
        | other_id t tid;
          [destruct body as [v|m]; destruct ok;
           [ destruct (truthy v) eqn:Htv;
             destruct (field "answer" v) as [a|] eqn:Hfa;
             try destruct (truthy a) eqn:Hta;
             try destruct (append_error env a) as [msg|] eqn:Happ
           | destruct v | | ]|]
        | other_id t tid | ].
      all: go; quiet_case.
Qed.

(** ** Facts on [Promise.all] *)

Lemma all_resolved_map (slots : list (option FileData)) (ds : list FileData) :
  all_resolved slots = Some ds -> slots = map Some ds.
Proof.
  revert ds; induction slots as [|[d|] slots IH]; intros ds H; cbn in H.
  - now injection H as <-.
  - destruct (all_resolved slots) as [ds'|]; [|discriminate].
    injection H as <-. cbn. f_equal. now apply IH.
  - discriminate.
Qed.

Lemma resolve_slot_length (i : nat) (d : FileData)
  (slots : list (option FileData)) :
  List.length (resolve_slot i d slots) = List.length slots.
Proof.
  revert i; induction slots as [|slot slots IH]; intros i;
    [now destruct i|].
  destruct i, slot; cbn; auto.
Qed.

Lemma resolve_slot_nth (i j : nat) (d x : FileData)
  (slots : list (option FileData)) :
  nth_error (resolve_slot i d slots) j = Some (Some x) ->
  nth_error slots j = Some (Some x) \/ (j = i /\ x = d).
Proof.
  revert i j; induction slots as [|slot slots IH]; intros i j H.
  - destruct i, j; cbn in H; discriminate.
  - destruct i, j, slot; cbn in H |- *; auto.
    + injection H as <-. now right.
    + destruct (IH _ _ H) as [H'|[-> ->]]; auto.
    + destruct (IH _ _ H) as [H'|[-> ->]]; auto.
Qed.

Lemma slots_ok_more (events : list Event) (e : Event) (tid : nat)
  (files : list File) (slots : list (option FileData)) :
  slots_ok events tid files slots ->
  slots_ok (events ++ [e]) tid files slots.
Proof.
  intros [Hlen H]. split; [exact Hlen|].
  intros i d Hd. destruct (H i d Hd) as (file & result & Hf & Hin & ->).
  exists file, result. repeat split; auto. apply in_or_app; now left.
Qed.

Lemma slots_ok_resolve (events : list Event) (tid i : nat) (result : string)
  (files : list File) (file : File) (slots : list (option FileData)) :
  slots_ok events tid files slots ->
  nth_error files i = Some file ->
  slots_ok (events ++ [FileLoaded tid i result]) tid files
    (resolve_slot i (toBase64 file result) slots).
Proof.
  intros [Hlen H] Hfile. split; [now rewrite resolve_slot_length|].
  intros j d Hd. destruct (resolve_slot_nth _ _ _ _ _ Hd) as [Hold|[-> ->]].
  - destruct (H j d Hold) as (file' & result' & Hf & Hin & ->).
    exists file', result'. repeat split; auto. apply in_or_app; now left.
  - exists file, result. repeat split; auto.
    apply in_or_app; right; now left.
Qed.

Lemma fully_encoded_more (events : list Event) (e : Event) (tid : nat)
  (files : list File) (data : Payload) :
  fully_encoded events tid files data ->
  fully_encoded (events ++ [e]) tid files data.
Proof.
  intros [Hlen H]. split; [exact Hlen|].
  intros i file Hf. destruct (H i file Hf) as (result & Hin & Hnth).
  exists result. split; [apply in_or_app; now left | exact Hnth].
Qed.

(** Once every slot is resolved the payload is the encoding of the whole
    queue. *)
Lemma slots_ok_encoded (env : Env) (events : list Event) (tid : nat)
  (snap : Snapshot) (files : list File) (slots : list (option FileData))
  (filesBase64 : list FileData) :
  slots_ok events tid files slots ->
  all_resolved slots = Some filesBase64 ->
  fully_encoded events tid files (data_of env snap filesBase64).
Proof.
  intros [Hlen H] Hall. apply all_resolved_map in Hall. subst slots.
  rewrite length_map in Hlen.
  unfold fully_encoded, data_of; cbn [p_files].
  split; [now rewrite length_map|].
  intros i file Hfile.
  assert (Hi : i < List.length filesBase64).
  { rewrite Hlen. apply nth_error_Some. congruence. }
  destruct (nth_error filesBase64 i) as [d|] eqn:Hd.
  2:{ apply nth_error_None in Hd. lia. }
  destruct (H i d) as (file' & result & Hf & Hin & ->).
  { now rewrite nth_error_map, Hd. }
  assert (file' = file) by congruence. subst file'.
  exists result. split; [exact Hin|].
  now rewrite nth_error_map, Hd.
Qed.

Lemma quiet_not_read (added : list Call) (tid : nat) (files : list File) :
  Forall quiet added -> ~ In (GetFiles tid files) added.
Proof.
  intros H Hin. rewrite Forall_forall in H. exact (H _ Hin).
Qed.

Lemma quiet_not_fetch (added : list Call) (tid : nat) (data : Payload) :
  Forall quiet added -> ~ In (FetchCall tid data) added.
Proof.
  intros H Hin. rewrite Forall_forall in H. exact (H _ Hin).
Qed.

(** ** The journal of every run *)

Lemma logs_logged (env : Env) (events : list Event) (s s' : State)
  (e : Event) :
  Logs env s e s' -> Logged events s -> Logged (events ++ [e]) s'.
Proof.
  intros Hstep (Hid & Huniq & Hfetch & Htask).
  destruct Hstep as
    [ added Hcalls Hquiet Hnext Hsame
    | Hsubmit Hirp Hnext Hcalls Htasks
    | Hsubmit Hirp Hnext Hcalls Htasks
    | t i result snap files slots file -> Hold Hfile Hnext Hcalls Htasks
    | t i result snap files slots file fb -> Hold Hfile Hall Hnext Hcalls
        Htasks ].
  - (* nothing read, nothing sent *)
    assert (Hread : forall tid files,
               In (GetFiles tid files) (calls s') ->
               In (GetFiles tid files) (calls s)).
    { intros tid files H. rewrite Hcalls in H.
      apply in_app_or in H as [H|H]; [exact H|].
      now apply quiet_not_read in H. }
    refine (conj _ (conj _ (conj _ _))).
    + intros tid files H. rewrite Hnext. eauto.
    + intros tid files files' H H'. eauto.
    + intros tid data H. rewrite Hcalls in H.
      apply in_app_or in H as [H|H]; [|now apply quiet_not_fetch in H].
      destruct (Hfetch _ _ H) as (files & Hin & Henc).
      exists files. split; [rewrite Hcalls; apply in_or_app; now left|].
      now apply fully_encoded_more.
    + intros tid snap files slots H.
      rewrite (Hsame _ _ _ _ H) in H.
      destruct (Htask _ _ _ _ H) as (Hin & Hok). split.
      * rewrite Hcalls. apply in_or_app. now left.
      * now apply slots_ok_more.
  - (* a submission that waits for its readers *)
    assert (Hread : forall tid files,
               In (GetFiles tid files) (calls s') ->
               In (GetFiles tid files) (calls s)
               \/ (tid = next_id s /\ files = filePond s)).
    { intros tid files H. rewrite Hcalls in H.
      apply in_app_or in H as [H|H]; [now left|].
      cbn in H. destruct H as [H|[H|[H|[]]]]; try discriminate.
      injection H as <- <-. now right. }
    refine (conj _ (conj _ (conj _ _))).
    + intros tid files H. rewrite Hnext.
      destruct (Hread _ _ H) as [H'|[-> _]]; [|lia].
      specialize (Hid _ _ H'). lia.
    + intros tid files files' H H'.
      destruct (Hread _ _ H) as [H1|[-> ->]];
        destruct (Hread _ _ H') as [H2|[E ->]]; eauto.
      * subst tid. specialize (Hid _ _ H1). lia.
      * specialize (Hid _ _ H2). lia.
    + intros tid data H. rewrite Hcalls in H.
      apply in_app_or in H as [H|H].
      2:{ cbn in H. destruct H as [H|[H|[H|[]]]]; discriminate. }
      destruct (Hfetch _ _ H) as (files & Hin & Henc).
      exists files. split; [rewrite Hcalls; apply in_or_app; now left|].
      now apply fully_encoded_more.
    + intros tid snap' files slots H.
      rewrite Htasks in H. injection H as <- <- <- <-.
      split; [|split].
      * rewrite Hcalls. apply in_or_app. right. cbn. auto.
      * now rewrite length_map.
      * intros i d Hd. rewrite nth_error_map in Hd.
        destruct (nth_error (filePond s) i); discriminate.
  - (* a submission with an empty queue *)
    assert (Hread : forall tid files,
               In (GetFiles tid files) (calls s') ->
               In (GetFiles tid files) (calls s)
               \/ (tid = next_id s /\ files = [])).
    { intros tid files H. rewrite Hcalls in H.
      apply in_app_or in H as [H|H]; [now left|].
      cbn in H. destruct H as [H|[H|[H|[H|[]]]]]; try discriminate.
      injection H as <- <-. now right. }
    refine (conj _ (conj _ (conj _ _))).
    + intros tid files H. rewrite Hnext.
      destruct (Hread _ _ H) as [H'|[-> _]]; [|lia].
      specialize (Hid _ _ H'). lia.
    + intros tid files files' H H'.
      destruct (Hread _ _ H) as [H1|[-> ->]];
        destruct (Hread _ _ H') as [H2|[E ->]]; eauto.
      * subst tid. specialize (Hid _ _ H1). lia.
      * specialize (Hid _ _ H2). lia.
    + intros tid data H. rewrite Hcalls in H.
      apply in_app_or in H as [H|H].
      * destruct (Hfetch _ _ H) as (files & Hin & Henc).
        exists files. split; [rewrite Hcalls; apply in_or_app; now left|].
        now apply fully_encoded_more.
      * cbn in H. destruct H as [H|[H|[H|[H|[]]]]]; try discriminate.
        injection H as <- <-. exists []. split.
        -- rewrite Hcalls. apply in_or_app. right. cbn. auto.
        -- split; [reflexivity|]. intros i file Hi.
           destruct i; discriminate.
    + intros tid snap' files slots H. rewrite Htasks in H. discriminate.
  - (* a reader is done, others are not *)
    destruct (Htask _ _ _ _ Hold) as (Hin & Hok).
    refine (conj _ (conj _ (conj _ _))).
    + intros tid files' H. rewrite Hnext. rewrite Hcalls in H. eauto.
    + intros tid f1 f2 H H'. rewrite Hcalls in H, H'. eauto.
    + intros tid data H. rewrite Hcalls in H |- *.
      destruct (Hfetch _ _ H) as (files' & Hin' & Henc).
      exists files'. split; [exact Hin'|]. now apply fully_encoded_more.
    + intros tid snap' files' slots' H.
      rewrite Htasks in H. injection H as <- <- <- <-.
      split; [now rewrite Hcalls|]. now apply slots_ok_resolve.
  - (* the last reader is done: the request leaves *)
    destruct (Htask _ _ _ _ Hold) as (Hin & Hok).
    assert (Hread : forall tid files,
               In (GetFiles tid files) (calls s') ->
               In (GetFiles tid files) (calls s)).
    { intros tid files' H. rewrite Hcalls in H.
      apply in_app_or in H as [H|H]; [exact H|].
      cbn in H. destruct H as [H|[]]. discriminate. }
    refine (conj _ (conj _ (conj _ _))).
    + intros tid files' H. rewrite Hnext. eauto.
    + intros tid f1 f2 H H'. eauto.
    + intros tid data H. rewrite Hcalls in H.
      apply in_app_or in H as [H|H].
      * destruct (Hfetch _ _ H) as (files' & Hin' & Henc).
        exists files'. split; [rewrite Hcalls; apply in_or_app; now left|].
        now apply fully_encoded_more.
      * cbn in H. destruct H as [H|[]]. injection H as <- <-.
        exists files. split; [rewrite Hcalls; apply in_or_app; now left|].
        apply slots_ok_encoded with
          (slots := resolve_slot i (toBase64 file result) slots);
          [|exact Hall].
        now apply slots_ok_resolve.
    + intros tid snap' files' slots' H. rewrite Htasks in H. discriminate.
Qed.

Lemma run_logged (env : Env) (events : list Event) :
  Logged events (run env events).
Proof.
  induction events as [|e events IH] using rev_ind.
  - refine (conj _ (conj _ (conj _ _))); cbn; intros; try contradiction;
      discriminate.
  - rewrite run_snoc.
    exact (logs_logged env events (run env events) _ e
             (step_logs env _ e (run_inv env events)) IH).
Qed.

(** C5.  In every run, a request that was handed to [fetch] carries one
    attachment for each file the invocation read from the queue, in the
    order of the queue, each with the name of its file and with the
    encoding a reader of that invocation delivered; the queue it read is
    the only one this invocation ever read.  As this holds for every
    prefix of a run, the encodings were all delivered by the time the
    request left. *)
Theorem payload_fully_encoded (env : Env) (events : list Event) (tid : nat)
  (data : Payload) :
  In (FetchCall tid data) (calls (run env events)) ->
  exists files,
    In (GetFiles tid files) (calls (run env events))
    /\ (forall files',
          In (GetFiles tid files') (calls (run env events)) ->
          files' = files)
    /\ fully_encoded events tid files data.
Proof.
  intros H. destruct (run_logged env events) as (_ & Huniq & Hfetch & _).
  destruct (Hfetch _ _ H) as (files & Hin & Henc).
  exists files. split; [exact Hin|]. split; [|exact Henc].
  intros files' H'. now apply (Huniq tid files files').
Qed.

Lemma payload_fully_encoded_witness :
  exists files,
    In (GetFiles 0 files) (calls (run Sample.page Sample.with_files))
    /\ (forall files',
          In (GetFiles 0 files') (calls (run Sample.page Sample.with_files)) ->
          files' = files)
    /\ fully_encoded Sample.with_files 0 files Sample.sent.
Proof.
  apply (payload_fully_encoded Sample.page Sample.with_files 0 Sample.sent).
  vm_compute. right. right. right. left. reflexivity.
Defined.

(** ** The form a request was built from *)








(** ** Document validation cards *)











(** ** The page follows the request *)

Ltac sync_case := cbn [stop_mode spinner isRequestInProgress]; split; reflexivity.

Lemma step_sync (env : Env) (s : State) (e : Event) :
  Inv s ->
  stop_mode s = isRequestInProgress s /\ spinner s = isRequestInProgress s ->
  stop_mode (step env s e) = isRequestInProgress (step env s e)
  /\ spinner (step env s e) = isRequestInProgress (step env s e).
Proof.
  intros (Hm & Hf & Hs) (Hstop & Hspin).
  destruct s as [cac irp ima q av ad sp fp ch spn sm ts nid tm ab cl].
  cbv [fresh] in Hf; cbn in Hm, Hf, Hs, Hstop, Hspin. subst ima sm spn.
  pose proof (fresh_not_aborted _ _ Hf) as Hnid.
  destruct ts as [|[t ph] [|]]; try contradiction.
  - destruct Hs as [-> ->].
    destruct e;
      [ | | | | destruct irp | destruct irp | | | | | | | ].
    6,8: destruct (negb (nonempty (trim q)) && negb (nonempty av)) eqn:Hv;
         destruct (specific_enabled env) eqn:Hen; destruct fp as [|f fp].
    all: go; sync_case.
  - destruct Hs as (-> & Hlt & Hna & -> & ->).
    unfold signal_aborted in Hna; cbn in Hna.
    destruct ph as [snap files slots| |ok]; cbn [in_network].
    + destruct e;
        [ | | | | | | |
        | other_id t tid;
          [destruct (nth_error slots i) as [[d|]|] eqn:Hslot|]
        | other_id t tid | other_id t tid | other_id t tid | ].
      8:{ other_id t tid; [|sync_case].
          destruct (nth_error files i) as [file|] eqn:Hfile;
            [|go; sync_case].
          destruct
            (all_resolved (resolve_slot i (toBase64 file result) slots))
            eqn:Hall; go; sync_case. }
      all: go; sync_case.
    + destruct e;
        [ | | | | | | | other_id t tid | other_id t tid | other_id t tid
        | other_id t tid | other_id t tid | other_id t tid ].
      all: go; sync_case.
    + destruct e;
        [ | | | | | | | other_id t tid | other_id t tid | other_id t tid
        | other_id t tid;
          [destruct body as [v|m]; destruct ok;
           [ destruct (truthy v) eqn:Htv;
             destruct (field "answer" v) as [a|] eqn:Hfa;
             try destruct (truthy a) eqn:Hta;
             try destruct (append_error env a) as [msg|] eqn:Happ
           | destruct v | | ]|]
        | other_id t tid | ].
      all: go; sync_case.
Qed.

Lemma run_sync (env : Env) (events : list Event) :
  stop_mode (run env events) = isRequestInProgress (run env events)
  /\ spinner (run env events) = isRequestInProgress (run env events).
Proof.
  induction events as [|e events IH] using rev_ind.
  - split; reflexivity.
  - rewrite run_snoc.
    exact (step_sync env (run env events) e (run_inv env events) IH).
Qed.

(** X1.  Between any two events the send button is in stop mode exactly
    when [isRequestInProgress] is set, and so is the spinner shown: the
    three never drift apart, whatever the order of clicks, reader events
    and network events. *)
Theorem page_follows_request (env : Env) (events : list Event) :
  stop_mode (run env events) = isRequestInProgress (run env events)
  /\ spinner (run env events) = isRequestInProgress (run env events).
Proof. exact (run_sync env events). Qed.

(** X17.  The controller and the timer are held exactly as long as they
    are needed.  Between any two events [currentAbortController] is set
    exactly while a request is on the wire, to the controller of that
    request, and a timer is armed exactly while the response of that
    request is awaited; nothing is left armed or set once the request
    settled. *)
Theorem controller_and_timer_follow_request (env : Env)
  (events : list Event) :
  currentAbortController (run env events)
  = match in_flight (run env events) with
    | (t, _) :: _ => Some t
    | [] => None
    end
  /\ timers (run env events)
     = match tasks (run env events) with
       | [(t, AwaitFetch)] => [t]
       | _ => []
       end.
Proof.
  destruct (run_inv env events) as (_ & _ & Hs). unfold in_flight.
  destruct (tasks (run env events)) as [|[t ph] [|]]; [| |contradiction].
  - destruct Hs as (-> & ->). split; reflexivity.
  - destruct Hs as (_ & _ & _ & -> & ->). cbn [filter snd].
    destruct ph; split; reflexivity.
Qed.

(** ** The transcript only grows *)

Ltac chat_case :=
  cbn [chat];
  first [ left; reflexivity
        | right; eexists; split;
          [reflexivity | solve [econstructor; eassumption]] ].

Lemma step_chat (env : Env) (s : State) (e : Event) :
  Inv s ->
  chat (step env s e) = chat s
  \/ exists entry,
       chat (step env s e) = chat s ++ [entry] /\ scripted env entry.
Proof.
  intros (Hm & Hf & Hs).
  destruct s as [cac irp ima q av ad sp fp ch spn sm ts nid tm ab cl].
  cbv [fresh] in Hf; cbn in Hm, Hf, Hs. subst ima.
  pose proof (fresh_not_aborted _ _ Hf) as Hnid.
  destruct ts as [|[t ph] [|]]; try contradiction.
  - destruct Hs as [-> ->].
    destruct e;
      [ | | | | destruct irp | destruct irp | | | | | | | ].
    6,8: destruct (negb (nonempty (trim q)) && negb (nonempty av)) eqn:Hv;
         destruct (specific_enabled env) eqn:Hen; destruct fp as [|f fp].
    all: go; chat_case.
  - destruct Hs as (-> & Hlt & Hna & -> & ->).
    unfold signal_aborted in Hna; cbn in Hna.
    destruct ph as [snap files slots| |ok]; cbn [in_network].
    + destruct e;
        [ | | | | | | |
        | other_id t tid;
          [destruct (nth_error slots i) as [[d|]|] eqn:Hslot|]
        | other_id t tid | other_id t tid | other_id t tid | ].
      8:{ other_id t tid; [|chat_case].
          destruct (nth_error files i) as [file|] eqn:Hfile;
            [|go; chat_case].
          destruct
            (all_resolved (resolve_slot i (toBase64 file result) slots))
            eqn:Hall; go; chat_case. }
      all: go; chat_case.
    + destruct e;
        [ | | | | | | | other_id t tid | other_id t tid | other_id t tid
        | other_id t tid | other_id t tid | other_id t tid ].
      all: go; chat_case.
    + destruct e;
        [ | | | | | | | other_id t tid | other_id t tid | other_id t tid
        | other_id t tid;
          [destruct body as [v|m]; destruct ok;
           [ destruct (truthy v) eqn:Htv;
             destruct (field "answer" v) as [a|] eqn:Hfa;
             try destruct (truthy a) eqn:Hta;
             try destruct (append_error env a) as [msg|] eqn:Happ
           | destruct v | | ]|]
        | other_id t tid | ].
      all: go; chat_case.
Qed.

(** X2.  An event never removes or rewrites an entry of the transcript:
    it leaves the transcript as it is or appends one entry to it. *)
Theorem transcript_append_only (env : Env) (events : list Event) (e : Event) :
  chat (run env (events ++ [e])) = chat (run env events)
  \/ exists entry,
       chat (run env (events ++ [e])) = chat (run env events) ++ [entry].
Proof.
  rewrite run_snoc.
  destruct (step_chat env (run env events) e (run_inv env events))
    as [H|(entry & H & _)]; [now left | right; now exists entry].
Qed.

Lemma userMessage_shape (question description specific prompt : string) :
  exists text edit,
    userMessage question description specific prompt = UserMessage text edit.
Proof.
  unfold userMessage.
  destruct (nonempty specific), (nonempty question), (nonempty prompt);
    cbn [andb negb]; eexists; eexists; reflexivity.
Qed.

Lemma not_scripted_card (env : Env) (card : Card) :
  ~ scripted env (DocumentCard card).
Proof.
  intros H. remember (DocumentCard card) as entry eqn:E.
  destruct H as [q d sp p|answer Ha| | |message|message|answer message Ha];
    try discriminate E.
  destruct (userMessage_shape q d sp p) as (text & edit & Hu).
  rewrite Hu in E. discriminate E.
Qed.

Lemma scripted_alert (env : Env) (message : string) :
  scripted env (Div "error-section alert alert-danger"
                  (JStr ("Error de conexión: " ++ message))) ->
  exists answer, append_error env answer = Some message.
Proof.
  intros H.
  remember (Div "error-section alert alert-danger"
              (JStr ("Error de conexión: " ++ message))) as entry eqn:E.
  destruct H as [q d sp p|answer Ha| | |m|m|answer m Ha];
    try discriminate E.
  - destruct (userMessage_shape q d sp p) as (text & edit & Hu).
    rewrite Hu in E. discriminate E.
  - exists answer. unfold communication_error in E.
    injection E as E. now subst m.
Qed.

(** X3.  In every run the transcript holds nothing but echoes of
    submissions, answer blocks, the cancellation and the timeout notice,
    the error sections of [callLLMAPI] and alerts of the [catch] block of
    [handleChatMessage].  No document card is ever rendered; and as
    [callLLMAPI] lets nothing but an [AbortError] through, the alert of
    the [catch] block is rendered for nothing but the exception of an
    answer that [append] rejects, with the message of that exception:
    with an [append] that inserts every value it is never rendered. *)
Theorem transcript_entries (env : Env) (events : list Event) :
  Forall (scripted env) (chat (run env events))
  /\ (forall card, ~ In (DocumentCard card) (chat (run env events)))
  /\ (forall message,
        In (Div "error-section alert alert-danger"
              (JStr ("Error de conexión: " ++ message)))
           (chat (run env events)) ->
        exists answer, append_error env answer = Some message).
Proof.
  assert (H : Forall (scripted env) (chat (run env events))).
  { induction events as [|e events IH] using rev_ind.
    - constructor.
    - rewrite run_snoc.
      destruct (step_chat env (run env events) e (run_inv env events))
        as [->|(entry & -> & Hentry)]; [exact IH|].
      apply Forall_app. split; [exact IH|]. now constructor. }
  split; [exact H|]. rewrite Forall_forall in H. split.
  - intros card Hin. exact (not_scripted_card env card (H _ Hin)).
  - intros message Hin. exact (scripted_alert env message (H _ Hin)).
Qed.

(** ** Validation of a submission *)



Lemma idle_of_flag (s : State) :
  Inv s -> isRequestInProgress s = false -> tasks s = [].
Proof.
  intros (_ & _ & Hs) Hirp.
  destruct (tasks s) as [|[t ph] [|]]; [reflexivity| |contradiction].
  destruct Hs as (H & _). congruence.
Qed.

(** An idle state of the invariant, opened up. *)
Ltac open_idle s Hinv Ht :=
  let Hm := fresh "Hm" in
  let Hs := fresh "Hs" in
  destruct Hinv as (Hm & Hf & Hs);
  destruct s as [cac irp ima q av ad sp fp ch spn sm ts nid tm ab cl];
  cbv [fresh] in Hf;
  cbn [isManualAbort aborted next_id tasks isRequestInProgress filePond
       question_input agent_select_value agent_select_description
       specific_input calls chat spinner stop_mode currentAbortController
       timers] in *;
  subst ima ts; destruct Hs as [-> ->];
  pose proof (fresh_not_aborted _ _ Hf) as Hnid.



(** X5.  While no request is in progress, a Send or an Enter with a
    question that [trim] leaves something of, or with a prompt selected,
    is accepted:
    the echo of the trimmed question is appended, the spinner is shown,
    the button turns to stop mode, the question and the prompt selection
    are cleared, the structured input is cleared when it is enabled, and
    one invocation is suspended, on the network call when the queue is
    empty and on the readers of the queued files otherwise, holding the
    values the form had.  The queue itself is left as it is until the
    request settles. *)
Theorem submission_accepted (env : Env) (events : list Event) (e : Event) :
  isRequestInProgress (run env events) = false ->
  trim (question_input (run env events)) <> ""
  \/ agent_select_value (run env events) <> "" ->
  e = ClickSend \/ e = PressEnter ->
  chat (step env (run env events) e)
  = chat (run env events)
    ++ [userMessage (trim (question_input (run env events)))
          (agent_select_description (run env events))
          (specificDataValue env (run env events))
          (agent_select_value (run env events))]
  /\ spinner (step env (run env events) e) = true
  /\ stop_mode (step env (run env events) e) = true
  /\ isRequestInProgress (step env (run env events) e) = true
  /\ question_input (step env (run env events) e) = ""
  /\ agent_select_value (step env (run env events) e) = ""
  /\ agent_select_description (step env (run env events) e) = ""
  /\ specific_input (step env (run env events) e)
     = (if specific_enabled env then ""
        else specific_input (run env events))
  /\ filePond (step env (run env events) e) = filePond (run env events)
  /\ tasks (step env (run env events) e)
     = [(next_id (run env events),
         match filePond (run env events) with
         | [] => AwaitFetch
         | files =>
             Encoding
               {| snap_question := trim (question_input (run env events));
                  snap_prompt := agent_select_value (run env events);
                  snap_specific := specificDataValue env (run env events) |}
               files (map (fun _ => None) files)
         end)].
Proof.
  intros Hirp Hvalid He. pose proof (run_inv env events) as Hinv.
  pose proof (idle_of_flag _ Hinv Hirp) as Ht.
  set (s := run env events) in *. clearbody s.
  assert (Hv : negb (nonempty (trim (question_input s)))
               && negb (nonempty (agent_select_value s)) = false).
  { apply andb_false_iff. destruct Hvalid as [H|H].
    - left. now apply negb_false_iff, nonempty_true.
    - right. now apply negb_false_iff, nonempty_true. }
  unfold specificDataValue.
  open_idle s Hinv Ht. subst irp.
  destruct (specific_enabled env) eqn:Hen; destruct fp as [|f fp];
    destruct He as [-> | ->]; go; repeat split.
Qed.

Lemma submission_accepted_witness :
  chat (step Sample.page
          (run Sample.page [TypeQuestion " Hello "; TypeSpecific "ACME"])
          PressEnter)
  = [UserMessage "ACME: Hello" (Some "Hello")]
  /\ question_input
       (step Sample.page
          (run Sample.page [TypeQuestion " Hello "; TypeSpecific "ACME"])
          PressEnter) = "".
Proof.
  destruct (submission_accepted Sample.page
              [TypeQuestion " Hello "; TypeSpecific "ACME"] PressEnter)
    as (Hchat & _ & _ & _ & Hq & _).
  - reflexivity.
  - left. vm_compute. discriminate.
  - right. reflexivity.
  - split; [exact Hchat | exact Hq].
Defined.

(** ** While the attachments are read *)

Lemma idle_ignores_stop (env : Env) (s : State) :
  Inv s -> tasks s = [] -> step env s ClickStop = s.
Proof.
  intros Hinv Ht. open_idle s Hinv Ht. destruct irp; now go.
Qed.

(** X6.  A cancel needs a request on the wire.  With none there, because
    the page is idle or because the invocation still waits for its readers
    and no controller exists yet, a Stop leaves the page exactly as it is;
    and while the in-progress flag is set, so do a Send and an Enter: an
    invocation that reads its attachments cannot be cancelled. *)
Theorem cancel_needs_request_on_wire (env : Env) (events : list Event) :
  in_flight (run env events) = [] ->
  step env (run env events) ClickStop = run env events
  /\ (isRequestInProgress (run env events) = true ->
      step env (run env events) ClickSend = run env events
      /\ step env (run env events) PressEnter = run env events).
Proof.
  intros Hwire. pose proof (run_inv env events) as Hinv.
  assert (Hstop : step env (run env events) ClickStop = run env events).
  { destruct (tasks (run env events)) as [|[t ph] [|]] eqn:Ht.
    - now apply idle_ignores_stop.
    - unfold in_flight in Hwire. rewrite Ht in Hwire. cbn [filter snd] in Hwire.
      destruct ph as [snap files slots| |ok]; try discriminate Hwire.
      exact (encoding_ignores_cancel env _ t snap files slots Hinv Ht).
    - destruct Hinv as (_ & _ & Hs). rewrite Ht in Hs. contradiction. }
  split; [exact Hstop|]. intros Hirp.
  unfold step, handle in *. rewrite (busy_is_cancel env _ Hirp).
  split; exact Hstop.
Qed.

Lemma cancel_needs_request_on_wire_witness :
  step Sample.page
    (run Sample.page
       [AddFile {| file_name := "a.txt" |}; TypeQuestion "Hello"; ClickSend])
    ClickSend
  = run Sample.page
      [AddFile {| file_name := "a.txt" |}; TypeQuestion "Hello"; ClickSend].
Proof.
  destruct (cancel_needs_request_on_wire Sample.page
              [AddFile {| file_name := "a.txt" |}; TypeQuestion "Hello";
               ClickSend] eq_refl) as (_ & Hsend).
  exact (proj1 (Hsend eq_refl)).
Defined.

Lemma edit_while_reading (env : Env) (s : State) (t : nat) (snap : Snapshot)
  (files : list File) (slots : list (option FileData)) (e : Event) :
  Inv s -> tasks s = [(t, Encoding snap files slots)] -> is_edit e = true ->
  tasks (step env s e) = tasks s /\ calls (step env s e) = calls s.
Proof.
  intros Hinv Ht He. open_state s Hinv Ht.
  destruct e; try discriminate He; go; split; reflexivity.
Qed.

Lemma last_reader_sends (env : Env) (s : State) (t i : nat) (snap : Snapshot)
  (files : list File) (slots : list (option FileData)) (file : File)
  (result : string) (filesBase64 : list FileData) :
  Inv s -> tasks s = [(t, Encoding snap files slots)] ->
  nth_error files i = Some file ->
  all_resolved (resolve_slot i (toBase64 file result) slots)
  = Some filesBase64 ->
  calls (step env s (FileLoaded t i result))
  = calls s ++ [FetchCall t (data_of env snap filesBase64)]
  /\ tasks (step env s (FileLoaded t i result)) = [(t, AwaitFetch)].
Proof.
  intros Hinv Ht Hfile Hall. open_state s Hinv Ht. go. split; reflexivity.
Qed.

(** X7.  The payload is a snapshot of the form taken at the submission.
    While the readers run, typing in the question or the structured input,
    picking a prompt or queueing a file changes neither the suspended
    invocation nor the journal; and when the last reader is done, the
    request leaves with the question, the prompt and the structured value
    of the snapshot and with the encodings of the files read at the
    submission. *)
Theorem payload_is_snapshot (env : Env) (events : list Event) (t : nat)
  (snap : Snapshot) (files : list File) (slots : list (option FileData)) :
  tasks (run env events) = [(t, Encoding snap files slots)] ->
  (forall e,
     is_edit e = true ->
     tasks (step env (run env events) e) = tasks (run env events)
     /\ calls (step env (run env events) e) = calls (run env events))
  /\ (forall i file result filesBase64,
        nth_error files i = Some file ->
        all_resolved (resolve_slot i (toBase64 file result) slots)
        = Some filesBase64 ->
        calls (step env (run env events) (FileLoaded t i result))
        = calls (run env events)
          ++ [FetchCall t
                {| p_question := snap_question snap;
                   p_prompt_name := snap_prompt snap;
                   p_client_data := client_data_of env snap;
                   p_files :=
                     map (fun d => {| filename := name d;
                                      content := base64 d |}) filesBase64;
                   p_external_user_id := externalUserId env |}]).
Proof.
  intros Ht. pose proof (run_inv env events) as Hinv. split.
  - intros e He. exact (edit_while_reading env _ t snap files slots e Hinv Ht He).
  - intros i file result fb Hfile Hall.
    exact (proj1 (last_reader_sends env _ t i snap files slots file result fb
                    Hinv Ht Hfile Hall)).
Qed.

Lemma payload_is_snapshot_witness :
  calls (step Sample.page
           (run Sample.page
              [AddFile {| file_name := "a.txt" |}; TypeQuestion "Hello";
               ClickSend; TypeQuestion "something else"])
           (FileLoaded 0 0 "data:text/plain;base64,QQ=="))
  = calls (run Sample.page
             [AddFile {| file_name := "a.txt" |}; TypeQuestion "Hello";
              ClickSend; TypeQuestion "something else"])
    ++ [FetchCall 0
          {| p_question := "Hello";
             p_prompt_name := "";
             p_client_data := [("prompt_name", ""); ("question", "Hello")];
             p_files := [{| filename := "a.txt"; content := Some "QQ==" |}];
             p_external_user_id := "user-1" |}].
Proof.
  destruct (payload_is_snapshot Sample.page
              [AddFile {| file_name := "a.txt" |}; TypeQuestion "Hello";
               ClickSend; TypeQuestion "something else"] 0
              {| snap_question := "Hello"; snap_prompt := "";
                 snap_specific := "" |}
              [{| file_name := "a.txt" |}] [None] eq_refl) as (_ & Hsend).
  exact (Hsend 0 {| file_name := "a.txt" |} "data:text/plain;base64,QQ=="
           [{| name := "a.txt"; base64 := Some "QQ==" |}] eq_refl eq_refl).
Defined.

(** ** A reader that fails *)

Lemma reader_failure (env : Env) (s : State) (t i : nat) (snap : Snapshot)
  (files : list File) (slots : list (option FileData)) :
  Inv s -> tasks s = [(t, Encoding snap files slots)] ->
  nth_error slots i = Some None ->
  wedged (step env s (FileFailed t i))
  /\ calls (step env s (FileFailed t i)) = calls s
  /\ chat (step env s (FileFailed t i)) = chat s
  /\ spinner (step env s (FileFailed t i)) = spinner s.
Proof.
  intros Hinv Ht Hslot. open_state s Hinv Ht. go. unfold wedged.
  repeat split.
Qed.

Lemma wedged_step (env : Env) (s : State) (e : Event) :
  Inv s -> wedged s ->
  wedged (step env s e)
  /\ calls (step env s e) = calls s
  /\ chat (step env s e) = chat s
  /\ spinner (step env s e) = spinner s.
Proof.
  intros Hinv (Ht & Hirp & _).
  open_idle s Hinv Ht. subst irp.
  destruct e; go; unfold wedged; repeat split.
Qed.

Lemma wedged_forever (env : Env) (later : list Event) (s : State) :
  Inv s -> wedged s ->
  wedged (fold_left (step env) later s)
  /\ calls (fold_left (step env) later s) = calls s
  /\ chat (fold_left (step env) later s) = chat s
  /\ spinner (fold_left (step env) later s) = spinner s.
Proof.
  revert s. induction later as [|e later IH]; intros s Hinv Hw.
  - cbn [fold_left]. split; [exact Hw|]. repeat split.
  - cbn [fold_left].
    destruct (wedged_step env s e Hinv Hw) as (Hw' & Hc & Hch & Hsp).
    destruct (IH (step env s e) (step_inv env s e Hinv) Hw')
      as (Hw'' & Hc' & Hch' & Hsp').
    split; [exact Hw''|]. split; [congruence|]. split; congruence.
Qed.

(** X8.  A reader that fails leaves the page wedged.  The invocation dies
    in [Promise.all], before its [try]: nothing is suspended any more, the
    in-progress flag stays set, the spinner stays, and no controller
    exists.  From then on, whatever the user and the network do, no call
    leaves the script and nothing is appended to the transcript: every
    Send runs the cancel handler, which finds nothing to abort. *)
Theorem failed_reader_wedges_page (env : Env) (events later : list Event)
  (t i : nat) (snap : Snapshot) (files : list File)
  (slots : list (option FileData)) :
  tasks (run env events) = [(t, Encoding snap files slots)] ->
  nth_error slots i = Some None ->
  wedged (run env (events ++ FileFailed t i :: later))
  /\ spinner (run env (events ++ FileFailed t i :: later)) = true
  /\ calls (run env (events ++ FileFailed t i :: later))
     = calls (run env events)
  /\ chat (run env (events ++ FileFailed t i :: later))
     = chat (run env events).
Proof.
  intros Ht Hslot. pose proof (run_inv env events) as Hinv.
  assert (Hrun : run env (events ++ FileFailed t i :: later)
                 = fold_left (step env) later
                     (step env (run env events) (FileFailed t i))).
  { unfold run. now rewrite fold_left_app. }
  rewrite Hrun.
  destruct (reader_failure env _ t i snap files slots Hinv Ht Hslot)
    as (Hw & Hc & Hch & Hsp).
  destruct (wedged_forever env later _ (step_inv env _ _ Hinv) Hw)
    as (Hw' & Hc' & Hch' & Hsp').
  split; [exact Hw'|]. split; [|split; congruence].
  rewrite Hsp', Hsp.
  destruct (run_sync env events) as (_ & ->).
  destruct Hinv as (_ & _ & Hs). rewrite Ht in Hs. apply Hs.
Qed.

Lemma failed_reader_wedges_page_witness :
  calls (run Sample.page
           ([AddFile {| file_name := "a.txt" |}; TypeQuestion "Hello";
             ClickSend]
            ++ FileFailed 0 0
               :: [ClickStop; TypeQuestion "again"; ClickSend; ClickSend]))
  = calls (run Sample.page
             [AddFile {| file_name := "a.txt" |}; TypeQuestion "Hello";
              ClickSend]).
Proof.
  apply (failed_reader_wedges_page Sample.page
           [AddFile {| file_name := "a.txt" |}; TypeQuestion "Hello";
            ClickSend]
           [ClickStop; TypeQuestion "again"; ClickSend; ClickSend] 0 0
           {| snap_question := "Hello"; snap_prompt := "";
              snap_specific := "" |}
           [{| file_name := "a.txt" |}] [None]); reflexivity.
Defined.

(** ** The deadline and the body *)

(** X9.  The deadline covers the wait for the response only.  Once the
    response is there and its body is being read, the timer is cleared:
    the expiry of any deadline leaves the page as it is, and the request
    can only be ended by its body, by a failure of the network or by the
    user. *)
Theorem deadline_off_while_body_is_read (env : Env) (events : list Event)
  (t : nat) (ok : bool) (tid : nat) :
  tasks (run env events) = [(t, AwaitBody ok)] ->
  step env (run env events) (Deadline tid) = run env events.
Proof.
  intros Ht. pose proof (run_inv env events) as Hinv.
  set (s := run env events) in *. clearbody s.
  open_state s Hinv Ht. now go.
Qed.

Lemma deadline_off_while_body_is_read_witness :
  step Sample.page (run Sample.page (Sample.answered true)) (Deadline 0)
  = run Sample.page (Sample.answered true).
Proof.
  apply (deadline_off_while_body_is_read Sample.page (Sample.answered true)
           0 true 0).
  reflexivity.
Defined.

(** ** Answers and failures of the network *)

(** X10.  When the body of a successful response decodes to a truthy
    value with a truthy [answer], what is rendered depends on [append].
    If it inserts the answer, exactly one block of class
    [answer-section llm-output] holding that answer is appended, whatever
    else the body carries, and the cleanup of the [finally] block follows.
    If it throws, the exception is caught by [handleChatMessage]: it is
    logged, the alert with the connection wording and its message is
    appended in place of the answer, and the cleanup runs twice.  Either
    way the page is idle afterwards. *)
Theorem answer_is_rendered (env : Env) (events : list Event) (t : nat)
  (v answer : json) :
  tasks (run env events) = [(t, AwaitBody true)] ->
  truthy v = true -> field "answer" v = Some answer ->
  truthy answer = true ->
  (append_error env answer = None ->
   chat (step env (run env events) (BodyRead t (Parsed v)))
   = chat (run env events) ++ [Div "answer-section llm-output" answer]
   /\ calls (step env (run env events) (BodyRead t (Parsed v)))
      = calls (run env events) ++ [HideSpinner; SetButtonToSend; RemoveFiles]
   /\ idle (step env (run env events) (BodyRead t (Parsed v))))
  /\ (forall message,
        append_error env answer = Some message ->
        chat (step env (run env events) (BodyRead t (Parsed v)))
        = chat (run env events)
          ++ [Div "error-section alert alert-danger"
                (JStr ("Error de conexión: " ++ message))]
        /\ calls (step env (run env events) (BodyRead t (Parsed v)))
           = calls (run env events)
             ++ [ConsoleError (mkExn "TypeError" message); HideSpinner;
                 SetButtonToSend; HideSpinner; SetButtonToSend; RemoveFiles]
        /\ idle (step env (run env events) (BodyRead t (Parsed v)))).
Proof.
  intros Ht Hv Ha Hta. pose proof (run_inv env events) as Hinv.
  pose proof (fun path => settle_step env _ t (AwaitBody true)
                            (BodyRead t (Parsed v)) path Hinv Ht) as Hsettle.
  cbn [settles] in Hsettle. rewrite Nat.eqb_refl in Hsettle.
  unfold render_error in Hsettle. rewrite Hv, Ha, Hta in Hsettle.
  split.
  - intros Happ. rewrite Happ in Hsettle.
    destruct (Hsettle _ eq_refl) as (Hidle & _ & _ & Hcalls & _).
    split; [|split; [exact Hcalls | exact Hidle]].
    exact (answer_rendered env _ t v answer Hinv Ht Hv Ha Hta Happ).
  - intros message Happ. rewrite Happ in Hsettle.
    destruct (Hsettle _ eq_refl) as (Hidle & _ & _ & Hcalls & _).
    split; [|split; [exact Hcalls | exact Hidle]].
    exact (answer_rejected env _ t v answer message Hinv Ht Hv Ha Hta Happ).
Qed.

Lemma answer_is_rendered_witness :
  chat (step Sample.page (run Sample.page (Sample.answered true))
          (BodyRead 0 (Parsed Sample.classified)))
  = chat (run Sample.page (Sample.answered true))
    ++ [Div "answer-section llm-output" (JStr "done")]
  /\ chat (step Sample.page (run Sample.page (Sample.answered true))
             (BodyRead 0 (Parsed Sample.list_answer)))
     = chat (run Sample.page (Sample.answered true))
       ++ [Div "error-section alert alert-danger"
             (JStr ("Error de conexión: " ++ Sample.not_a_node))].
Proof.
  split.
  - apply (answer_is_rendered Sample.page (Sample.answered true) 0
             Sample.classified (JStr "done")); reflexivity.
  - now destruct (answer_is_rendered Sample.page (Sample.answered true) 0
                    Sample.list_answer
                    (JObj [("length",
                            JNum {| is_zero := false; is_positive := true;
                                    printed := "1" |});
                           ("0", JStr "x")])
                    eq_refl eq_refl eq_refl eq_refl)
      as (_ & H); apply (H Sample.not_a_node eq_refl).
Defined.

Lemma network_failed_rendered (env : Env) (s : State) (t : nat) (ph : Phase)
  (message : string) :
  Inv s -> tasks s = [(t, ph)] -> in_network ph = true ->
  chat (step env s (NetworkFailed t message))
  = chat s ++ [connection_error message].
Proof.
  intros Hinv Ht Hnet. open_state s Hinv Ht.
  destruct ph as [snap files slots| |ok]; [discriminate| |]; now go.
Qed.

(** X11.  A failure of the network, while the response is awaited or
    while its body is read, and an undecodable body of a successful
    response are rendered alike: one section of class [error-section]
    with the connection wording followed by the message of the exception.
    No exception reaches [handleChatMessage]: the only calls made are the
    cleanup of its [finally] block, and the page is idle afterwards. *)
Theorem connectivity_error_rendering (env : Env) (events : list Event)
  (t : nat) (ph : Phase) (message : string) :
  tasks (run env events) = [(t, ph)] ->
  in_network ph = true ->
  (chat (step env (run env events) (NetworkFailed t message))
   = chat (run env events)
     ++ [Div "error-section"
           (JStr ("<p>Error de conexión: " ++ message ++ "</p>"))]
   /\ calls (step env (run env events) (NetworkFailed t message))
      = calls (run env events) ++ [HideSpinner; SetButtonToSend; RemoveFiles]
   /\ idle (step env (run env events) (NetworkFailed t message)))
  /\ (ph = AwaitBody true ->
      chat (step env (run env events) (BodyRead t (Unparsable message)))
      = chat (run env events)
        ++ [Div "error-section"
              (JStr ("<p>Error de conexión: " ++ message ++ "</p>"))]
      /\ calls (step env (run env events) (BodyRead t (Unparsable message)))
         = calls (run env events)
           ++ [HideSpinner; SetButtonToSend; RemoveFiles]
      /\ idle (step env (run env events) (BodyRead t (Unparsable message)))).
Proof.
  intros Ht Hnet. pose proof (run_inv env events) as Hinv. split.
  - assert (Hpath : settles env t ph (NetworkFailed t message)
                    = Some ConnectivityError).
    { destruct ph as [| |[|]]; try discriminate; cbn [settles];
        now rewrite Nat.eqb_refl. }
    destruct (settle_step env _ t _ _ _ Hinv Ht Hpath)
      as (Hidle & _ & _ & Hcalls & _).
    split; [|split; [exact Hcalls | exact Hidle]].
    exact (network_failed_rendered env _ t ph message Hinv Ht Hnet).
  - intros ->.
    assert (Hpath : settles env t (AwaitBody true) (BodyRead t (Unparsable message))
                    = Some ConnectivityError).
    { cbn [settles]. now rewrite Nat.eqb_refl. }
    destruct (settle_step env _ t _ _ _ Hinv Ht Hpath)
      as (Hidle & _ & _ & Hcalls & _).
    split; [|split; [exact Hcalls | exact Hidle]].
    exact (unparsable_rendered env _ t true message Hinv Ht).
Qed.

Lemma connectivity_error_rendering_witness :
  chat (step Sample.page (run Sample.page Sample.asked)
          (NetworkFailed 0 "Failed to fetch"))
  = [UserMessage "Hello" (Some "Hello");
     Div "error-section" (JStr "<p>Error de conexión: Failed to fetch</p>")].
Proof.
  destruct (connectivity_error_rendering Sample.page Sample.asked 0
              AwaitFetch "Failed to fetch" eq_refl eq_refl)
    as ((Hchat & _) & _).
  exact Hchat.
Defined.

(** ** One read of the queue and at most one request for a submission *)

Lemma quiet_no_read (tid : nat) (added : list Call) :
  Forall quiet added -> filter (is_read_of tid) added = [].
Proof.
  induction 1 as [|c added Hc _ IH]; [reflexivity|].
  cbn [filter]. rewrite IH. now destruct c.
Qed.

Lemma quiet_no_fetch (tid : nat) (added : list Call) :
  Forall quiet added -> filter (is_fetch_of tid) added = [].
Proof.
  induction 1 as [|c added Hc _ IH]; [reflexivity|].
  cbn [filter]. rewrite IH. now destruct c.
Qed.

Lemma logs_counted (env : Env) (s s' : State) (e : Event) :
  Inv s -> Logs env s e s' -> Counted s -> Counted s'.
Proof.
  intros Hinv Hstep Hc tid. destruct (Hc tid) as (Hread & Hone & Hnew & Henc).
  destruct Hstep as
    [ added Hcalls Hquiet Hnext Hsame
    | Hsubmit Hirp Hnext Hcalls Htasks
    | Hsubmit Hirp Hnext Hcalls Htasks
    | t i result snap files slots file -> Hold Hfile Hnext Hcalls Htasks
    | t i result snap files slots file fb -> Hold Hfile Hall Hnext Hcalls
        Htasks ].
  - rewrite (count_app _ _ _ _ Hcalls), (count_app (is_fetch_of tid) _ _ _ Hcalls).
    rewrite (quiet_no_read tid _ Hquiet), (quiet_no_fetch tid _ Hquiet), Hnext.
    cbn [List.length]. rewrite !Nat.add_0_r.
    repeat split; auto.
    intros snap files slots H. rewrite (Hsame _ _ _ _ H) in H. eauto.
  - rewrite (count_app _ _ _ _ Hcalls), (count_app (is_fetch_of tid) _ _ _ Hcalls).
    rewrite Hnext, Hread. cbn [filter is_read_of is_fetch_of List.length].
    rewrite Nat.add_0_r.
    destruct (Nat.eqb_spec (next_id s) tid) as [<-|Hne].
    + assert (H0 : count (is_fetch_of (next_id s)) s = 0) by (apply Hnew; lia).
      rewrite Nat.ltb_irrefl. cbn [List.length].
      destruct (Nat.ltb_spec (next_id s) (S (next_id s))); [|lia].
      repeat split; try lia.
    + cbn [List.length]. rewrite Nat.add_0_r.
      repeat split; auto.
      * destruct (Nat.ltb_spec tid (next_id s)),
          (Nat.ltb_spec tid (S (next_id s))); lia.
      * intros H. apply Hnew. lia.
      * intros snap' files slots H. rewrite Htasks in H.
        injection H as Htid _. congruence.
  - rewrite (count_app _ _ _ _ Hcalls), (count_app (is_fetch_of tid) _ _ _ Hcalls).
    rewrite Hnext, Hread. cbn [filter is_read_of is_fetch_of List.length].
    destruct (Nat.eqb_spec (next_id s) tid) as [<-|Hne].
    + assert (H0 : count (is_fetch_of (next_id s)) s = 0) by (apply Hnew; lia).
      rewrite Nat.ltb_irrefl. cbn [List.length].
      destruct (Nat.ltb_spec (next_id s) (S (next_id s))); [|lia].
      repeat split; try lia.
      intros snap' files slots Htask. rewrite Htasks in Htask. discriminate.
    + cbn [List.length]. rewrite !Nat.add_0_r.
      repeat split; auto.
      * destruct (Nat.ltb_spec tid (next_id s)),
          (Nat.ltb_spec tid (S (next_id s))); lia.
      * intros H. apply Hnew. lia.
      * intros snap' files slots H. rewrite Htasks in H. discriminate.
  - unfold count in *. rewrite Hcalls, Hnext.
    repeat split; auto.
    intros snap' files' slots' H. rewrite Htasks in H.
    injection H as <- _ _ _. exact (Henc _ _ _ Hold).
  - rewrite (count_app _ _ _ _ Hcalls), (count_app (is_fetch_of tid) _ _ _ Hcalls).
    rewrite Hnext, Hread. cbn [filter is_read_of is_fetch_of List.length].
    rewrite Nat.add_0_r.
    assert (Hlt : t < next_id s).
    { destruct Hinv as (_ & _ & Hs). rewrite Hold in Hs. apply Hs. }
    destruct (Nat.eqb_spec t tid) as [<-|Hne]; cbn [List.length].
    + rewrite (Henc _ _ _ Hold). repeat split; try lia.
      intros snap' files' slots' H. rewrite Htasks in H. discriminate.
    + rewrite Nat.add_0_r. repeat split; auto.
      intros snap' files' slots' H. rewrite Htasks in H. discriminate.
Qed.

Lemma run_counted (env : Env) (events : list Event) :
  Counted (run env events).
Proof.
  induction events as [|e events IH] using rev_ind.
  - intros tid. cbn. repeat split; auto; intros; discriminate.
  - rewrite run_snoc.
    exact (logs_counted env (run env events) _ e (run_inv env events)
             (step_logs env _ e (run_inv env events)) IH).
Qed.

(** X12.  In every run, an invocation of the submit handler that got past
    validation read the upload queue exactly once and called [fetch] at
    most once; ids are handed out in order, so the ids below [next_id] are
    the accepted submissions and no call carries another id. *)
Theorem one_request_per_submission (env : Env) (events : list Event)
  (tid : nat) :
  count (is_read_of tid) (run env events)
  = (if (tid <? next_id (run env events))%nat then 1 else 0)
  /\ count (is_fetch_of tid) (run env events)
     <= count (is_read_of tid) (run env events).
Proof.
  destruct (run_counted env events tid) as (Hread & Hone & Hnew & _).
  split; [exact Hread|]. rewrite Hread.
  destruct (Nat.ltb_spec tid (next_id (run env events))); [exact Hone|].
  rewrite (Hnew H). lia.
Qed.

(** ** Where the card renderer stops *)






(** ** The encoding handed back by a reader *)

Lemma split_free (sep : ascii) (s : string) :
  free_of sep s = true -> split sep s = [s].
Proof.
  induction s as [|c s IH]; cbn; [reflexivity|].
  destruct (Ascii.eqb c sep); cbn; [discriminate|].
  intros H. now rewrite (IH H).
Qed.

Lemma split_at_first (sep : ascii) (head rest : string) :
  free_of sep head = true ->
  split sep (head ++ String sep rest) = head :: split sep rest.
Proof.
  induction head as [|c head IH]; cbn.
  - intros _. now rewrite Ascii.eqb_refl.
  - destruct (Ascii.eqb c sep); cbn; [discriminate|].
    intros H. now rewrite (IH H).
Qed.

(** X14.  [toBase64] keeps the name of the file and, of a data URL made
    of a header, a comma and a payload with no comma in either, exactly
    the payload: the media type and the [base64] marker are dropped.  A
    result without a comma gives no content at all, and of a payload with
    a comma only the part before it is kept. *)
Theorem toBase64_keeps_payload (file : File) (header payload : string) :
  free_of "," header = true ->
  (free_of "," payload = true ->
   toBase64 file (header ++ String "," payload)
   = {| name := file_name file; base64 := Some payload |})
  /\ (forall more,
        free_of "," payload = true ->
        toBase64 file (header ++ String "," (payload ++ String "," more))
        = {| name := file_name file; base64 := Some payload |})
  /\ toBase64 file header = {| name := file_name file; base64 := None |}.
Proof.
  intros Hheader. unfold toBase64. split; [|split].
  - intros Hpayload.
    now rewrite (split_at_first _ _ _ Hheader), (split_free _ _ Hpayload).
  - intros more Hpayload.
    now rewrite (split_at_first _ _ _ Hheader),
      (split_at_first _ _ _ Hpayload).
  - now rewrite (split_free _ _ Hheader).
Qed.

Lemma toBase64_keeps_payload_witness :
  toBase64 {| file_name := "a.txt" |} "data:text/plain;base64,QUJD"
  = {| name := "a.txt"; base64 := Some "QUJD" |}.
Proof.
  destruct (toBase64_keeps_payload {| file_name := "a.txt" |}
              "data:text/plain;base64" "QUJD" eq_refl) as (H & _).
  exact (H eq_refl).
Defined.

(** ** A transport key that is one of the fixed keys *)

(** X15.  When the configured transport key is [question] or
    [prompt_name], an enabled and non-blank structured value does not add
    a key to [client_data]: it replaces the value of the fixed key there,
    so the question (or the prompt name) inside [client_data] is the
    structured value, while the top-level [question] and [prompt_name] of
    the payload keep the values of the form. *)
Theorem colliding_transport_key (env : Env) (cfg : Config)
  (snap : Snapshot) (filesBase64 : list FileData) :
  company_ui_config env = Some cfg ->
  enabled cfg = true ->
  snap_specific snap <> "" ->
  (data_key cfg = "question" ->
   p_client_data (data_of env snap filesBase64)
   = [("prompt_name", snap_prompt snap); ("question", snap_specific snap)])
  /\ (data_key cfg = "prompt_name" ->
      p_client_data (data_of env snap filesBase64)
      = [("prompt_name", snap_specific snap);
         ("question", snap_question snap)])
  /\ p_question (data_of env snap filesBase64) = snap_question snap
  /\ p_prompt_name (data_of env snap filesBase64) = snap_prompt snap.
Proof.
  intros Hcfg Hen Hval. apply nonempty_true in Hval.
  unfold data_of, client_data_of; cbn [p_client_data p_question p_prompt_name].
  rewrite Hcfg, Hen, Hval. cbn [andb].
  split; [|split; [|split; reflexivity]]; intros ->; reflexivity.
Qed.

Lemma colliding_transport_key_witness :
  p_client_data
    (data_of
       {| company_ui_config :=
            Some {| enabled := true; id := "rut"; data_key := "question" |};
          externalUserId := "user-1";
          null_read_message := "";
          abort_message := "";
          string_positive := fun _ => false;
          append_error := fun _ => None;
          in_error_message := fun _ => "";
          not_callable_message := "" |}
       {| snap_question := "Hello"; snap_prompt := "";
          snap_specific := "ACME" |} [])
  = [("prompt_name", ""); ("question", "ACME")].
Proof.
  destruct (colliding_transport_key
              {| company_ui_config :=
                   Some {| enabled := true; id := "rut";
                           data_key := "question" |};
                 externalUserId := "user-1";
                 null_read_message := "";
                 abort_message := "";
                 string_positive := fun _ => false;
                 append_error := fun _ => None;
                 in_error_message := fun _ => "";
                 not_callable_message := "" |}
              {| enabled := true; id := "rut"; data_key := "question" |}
              {| snap_question := "Hello"; snap_prompt := "";
                 snap_specific := "ACME" |} [] eq_refl eq_refl)
    as (H & _); [discriminate|].
  exact (H eq_refl).
Defined.

(** ** What the echo shows *)

(** X16.  The echo of a submission.  The entry has no edit icon exactly
    when a prompt is selected and no structured value is given, and an
    icon that is there restores the question as it was submitted.  A
    question alone is echoed as it is, after the structured value and a
    colon when there is one.  When a question and a prompt are submitted
    together, one of them is not shown: without a structured value the
    echo is the description of the prompt alone, with one it is the
    question alone. *)
Theorem echo_rules (question description specific prompt : string) :
  (exists text,
     userMessage question description specific prompt
     = UserMessage text
         (if negb (nonempty specific) && nonempty prompt then None
          else Some question))
  /\ (prompt = "" -> specific = "" ->
      userMessage question description specific prompt
      = UserMessage question (Some question))
  /\ (prompt = "" -> specific <> "" -> question <> "" ->
      userMessage question description specific prompt
      = UserMessage (specific ++ ": " ++ question) (Some question))
  /\ (prompt <> "" -> specific = "" ->
      userMessage question description specific prompt
      = UserMessage description None)
  /\ (prompt <> "" -> specific <> "" -> question <> "" ->
      userMessage question description specific prompt
      = UserMessage question (Some question)).
Proof.
  unfold userMessage.
  split; [|split; [|split; [|split]]].
  - destruct (nonempty specific), (nonempty question), (nonempty prompt);
      cbn [andb negb]; eexists; reflexivity.
  - intros -> ->. cbn. reflexivity.
  - intros -> Hs Hq. apply nonempty_true in Hs, Hq. rewrite Hs, Hq.
    reflexivity.
  - intros Hp ->. apply nonempty_true in Hp. rewrite Hp.
    destruct (nonempty question); reflexivity.
  - intros Hp Hs Hq. apply nonempty_true in Hp, Hs, Hq.
    rewrite Hp, Hs, Hq. reflexivity.
Qed.

Lemma echo_rules_witness :
  userMessage "Hello" "Summarize" "" "summarize"
  = UserMessage "Summarize" None
  /\ userMessage "Hello" "Summarize" "ACME" "summarize"
     = UserMessage "Hello" (Some "Hello").
Proof.
  destruct (echo_rules "Hello" "Summarize" "" "summarize")
    as (_ & _ & _ & Hprompt & _).
  destruct (echo_rules "Hello" "Summarize" "ACME" "summarize")
    as (_ & _ & _ & _ & Hboth).
  split; [apply Hprompt | apply Hboth]; (reflexivity || discriminate).
Defined.
